(** * A reliable transport over datagrams: [send.py] and [recv.py]

    The sender reads chunks from standard input, frames them as JSON
    messages with an additive checksum and keeps them in a dictionary until
    they are acknowledged; the receiver validates, buffers and prints them
    in id order and acknowledges every valid message.

    Python values are embedded as they occur in the two programs: integers
    as [Z], floating-point numbers as IEEE binary64 ([PrimFloat.float], the
    representation CPython uses), [str] as a list of code points, [dict] as
    an insertion-ordered association list, exceptions as a sum type, and
    the object state ([self]) as a record threaded through a small
    state-and-exception monad.  What the library does is a parameter:
    [json.loads], which returns a value or raises, the encoding of standard
    output, on which it depends whether [print] raises, and the clock. *)

From Stdlib Require Import String Ascii.
From Stdlib Require Import ZArith List Lia Bool.
From Stdlib Require Import Permutation Sorted.
From Stdlib Require Import Floats.
Import ListNotations.
Open Scope Z_scope.
Set Warnings "-register-all".

(** ** Python values *)

(** A [str]: its code points, in order. *)
Definition pystr := list Z.

(** The [str] written with the (ASCII) literal [s]. *)
Definition py (s : string) : pystr :=
  map (fun a => Z.of_N (N_of_ascii a)) (list_ascii_of_string s).

Fixpoint str_eqb (s t : pystr) : bool :=
  match s, t with
  | [], [] => true
  | a :: s', b :: t' => (a =? b) && str_eqb s' t'
  | _, _ => false
  end.

(** What [json.loads] can return: [None], [bool], [int], [float], [str],
    [list], and [dict] with [str] keys (first binding of a key counts). *)
Inductive json : Type :=
| JNull
| JBool (b : bool)
| JInt (z : Z)
| JFloat (f : float)
| JStr (s : pystr)
| JList (l : list json)
| JObj (fields : list (pystr * json)).

(** The exceptions that occur: the three the two programs catch, the
    [UnicodeEncodeError] of [print], and the [RecursionError] of
    [json.loads]. *)
Inductive exn : Type :=
| ValueError
| KeyError
| TypeError
| UnicodeEncodeError
| RecursionError.

(** What [except (ValueError, KeyError, TypeError)] catches: a
    [UnicodeEncodeError] is a [ValueError], a [RecursionError] is none of
    the three. *)
Definition caught (e : exn) : bool :=
  match e with
  | ValueError | KeyError | TypeError | UnicodeEncodeError => true
  | RecursionError => false
  end.

(** A computation that returns or raises. *)
Definition Exc (A : Type) : Type := (exn + A)%type.

Definition ebind {A B} (c : Exc A) (k : A -> Exc B) : Exc B :=
  match c with
  | inl e => inl e
  | inr a => k a
  end.

Notation "'let?' x ':=' c 'in' k" := (ebind c (fun x => k))
  (at level 10, x name, c at level 100, k at level 200).

Fixpoint emap {A B} (f : A -> Exc B) (l : list A) : Exc (list B) :=
  match l with
  | [] => inr []
  | a :: l' => let? b := f a in let? bs := emap f l' in inr (b :: bs)
  end.

(** The integer a [float] is equal to, if any (Python compares [int] and
    [float] by exact value). *)
Definition float_int (f : float) : option Z :=
  match Prim2SF f with
  | S754_zero _ => Some 0
  | S754_finite sign m e =>
      let mag :=
        if 0 <=? e then Some (Z.pos m * 2 ^ e)
        else if Z.pos m mod 2 ^ (- e) =? 0 then Some (Z.pos m / 2 ^ (- e))
        else None in
      option_map (fun z => if sign then - z else z) mag
  | _ => None
  end.

(** The integer a value is numerically equal to: [True == 1], [2.0 == 2]. *)
Definition key_int (v : json) : option Z :=
  match v with
  | JBool b => Some (if b then 1 else 0)
  | JInt z => Some z
  | JFloat f => float_int f
  | _ => None
  end.

(** [a == b] on decoded values, as [dict] lookup and [!=] use it.  Two [nan]
    from [json.loads] are the same object, which a [dict] lookup treats as
    equal; containers are only ever compared with an [int] here. *)
Definition py_eq (a b : json) : bool :=
  match a, b with
  | JNull, JNull => true
  | JStr s, JStr t => str_eqb s t
  | JFloat f, JFloat g => (f =? g)%float || (is_nan f && is_nan g)
  | _, _ =>
      match key_int a, key_int b with
      | Some x, Some y => x =? y
      | _, _ => false
      end
  end.

(** [o[key]] for a [str] key: only a [dict] can be subscripted by a [str]. *)
Fixpoint assoc (key : pystr) (fields : list (pystr * json)) : option json :=
  match fields with
  | [] => None
  | (k, v) :: rest => if str_eqb key k then Some v else assoc key rest
  end.

Definition getitem (o : json) (key : pystr) : Exc json :=
  match o with
  | JObj fields =>
      match assoc key fields with
      | Some v => inr v
      | None => inl KeyError
      end
  | _ => inl TypeError
  end.

(** Iteration: the characters of a [str], the items of a [list], the keys of
    a [dict]; anything else is not iterable. *)
Definition py_iter (o : json) : Exc (list json) :=
  match o with
  | JStr s => inr (map (fun c => JStr [c]) s)
  | JList l => inr l
  | JObj fields => inr (map (fun kv => JStr (fst kv)) fields)
  | _ => inl TypeError
  end.

(** [ord(c)]: defined on a [str] of length one. *)
Definition ord (c : json) : Exc Z :=
  match c with
  | JStr [x] => inr x
  | _ => inl TypeError
  end.

(** [functools.reduce(f, xs)] with no initial value. *)
Definition reduce {A} (f : A -> A -> A) (xs : list A) : Exc A :=
  match xs with
  | [] => inl TypeError
  | x :: rest => inr (fold_left f rest x)
  end.

(** ** Dictionaries keyed by decoded values *)

Definition pydict := list (json * json).

Definition hashable (k : json) : bool :=
  match k with
  | JList _ | JObj _ => false
  | _ => true
  end.

Fixpoint dict_find (k : json) (d : pydict) : option json :=
  match d with
  | [] => None
  | (k', v) :: rest => if py_eq k k' then Some v else dict_find k rest
  end.

(** [k in d] *)
Definition dict_contains (k : json) (d : pydict) : Exc bool :=
  if hashable k then
    inr (match dict_find k d with Some _ => true | None => false end)
  else inl TypeError.

(** [d[k]] *)
Definition dict_getitem (k : json) (d : pydict) : Exc json :=
  if hashable k then
    match dict_find k d with
    | Some v => inr v
    | None => inl KeyError
    end
  else inl TypeError.

(** [d[k] = v]: an existing key keeps its place, a new one goes last. *)
Fixpoint dict_set (k v : json) (d : pydict) : pydict :=
  match d with
  | [] => [(k, v)]
  | (k', v') :: rest =>
      if py_eq k k' then (k', v) :: rest else (k', v') :: dict_set k v rest
  end.

(** [d.pop(k)] for a key that is present. *)
Fixpoint dict_pop (k : json) (d : pydict) : pydict :=
  match d with
  | [] => []
  | (k', v') :: rest =>
      if py_eq k k' then rest else (k', v') :: dict_pop k rest
  end.

Definition dict_values (d : pydict) : list json := map snd d.

Definition len {A} (l : list A) : Z := Z.of_nat (length l).

(** ** State and exceptions *)

Section Monad.
Context {St : Type}.

Definition M (A : Type) : Type := St -> Exc A * St.

Definition ret {A} (a : A) : M A := fun s => (inr a, s).

Definition bind {A B} (c : M A) (k : A -> M B) : M B :=
  fun s =>
    match c s with
    | (inr a, s') => k a s'
    | (inl e, s') => (inl e, s')
    end.

Definition lift {A} (x : Exc A) : M A := fun s => (x, s).

Definition get : M St := fun s => (inr s, s).

Definition modify (f : St -> St) : M unit := fun s => (inr tt, f s).

(** [try: body  except (ValueError, KeyError, TypeError): handler]; any
    other exception leaves the statement. *)
Definition try_except {A} (body : M A) (handler : exn -> M A) : M A :=
  fun s =>
    match body s with
    | (inl e, s') => if caught e then handler e s' else (inl e, s')
    | (inr a, s') => (inr a, s')
    end.

Definition when (b : bool) (c : M unit) : M unit :=
  if b then c else ret tt.

(** The state a computation leaves behind. *)
Definition exec {A} (c : M A) (s : St) : St := snd (c s).
End Monad.

Arguments M : clear implicits.

Notation "x <- c ;; k" := (bind c (fun x => k))
  (at level 61, c at next level, right associativity).
Notation "c ;; k" := (bind c (fun _ => k))
  (at level 61, right associativity).

(** Lines written to standard error. *)
Inductive logline : Type :=
| LogText (s : string)
| LogMsg (s : string) (msg : json)
| LogExn (e : exn).

(** ** The receiver ([recv.py]) *)

Module Receiver.

(** [self], with the datagrams handed to the socket and the values handed
    to [print] recorded oldest first. *)
Record state : Type := mk {
  printed_id : Z;
  received_msgs : pydict;
  remote_host : option pystr;
  remote_port : option Z;
  sent : list json;
  stdout : list json;
  stderr : list logline
}.

Definition set_printed_id (v : Z) (r : state) : state :=
  mk v (received_msgs r) (remote_host r) (remote_port r) (sent r)
     (stdout r) (stderr r).
Definition set_received_msgs (v : pydict) (r : state) : state :=
  mk (printed_id r) v (remote_host r) (remote_port r) (sent r)
     (stdout r) (stderr r).
Definition set_remote (h : pystr) (p : Z) (r : state) : state :=
  mk (printed_id r) (received_msgs r) (Some h) (Some p) (sent r)
     (stdout r) (stderr r).
Definition set_sent (v : list json) (r : state) : state :=
  mk (printed_id r) (received_msgs r) (remote_host r) (remote_port r) v
     (stdout r) (stderr r).
Definition set_stdout (v : list json) (r : state) : state :=
  mk (printed_id r) (received_msgs r) (remote_host r) (remote_port r)
     (sent r) v (stderr r).
Definition set_stderr (v : list logline) (r : state) : state :=
  mk (printed_id r) (received_msgs r) (remote_host r) (remote_port r)
     (sent r) (stdout r) v.

(** The class attributes and [__init__]. *)
Definition init : state := mk 0 [] None None [] [] [].

(** [send]: the message goes to [(remote_host, remote_port)]. *)
Definition send (message : json) : M state unit :=
  modify (fun r => set_sent (sent r ++ [message]) r).

Definition log (l : logline) : M state unit :=
  modify (fun r => set_stderr (stderr r ++ [l]) r).

(** [functools.reduce(lambda x,y:x+y, map(ord, st)) % 256] *)
Definition checksum256 (st : json) : Exc Z :=
  let? items := py_iter st in
  let? codes := emap ord items in
  let? total := reduce Z.add codes in
  inr (total mod 256).

Section Run.
(** [json.loads(data.decode('utf-8'))]: library code.  It returns a value
    or raises: a [ValueError] on text that is not JSON, a [RecursionError]
    on text that is nested too deeply. *)
Variable json_loads : string -> Exc json.

(** Whether standard output can encode [str(v)]: with UTF-8 it cannot when
    [v] is a [str] with a lone surrogate. *)
Variable printable : json -> bool.

(** [print(v, end='', flush=True)] raises [UnicodeEncodeError] on a value
    that standard output cannot encode, and writes nothing of it. *)
Definition print (v : json) : M state unit :=
  if printable v then modify (fun r => set_stdout (stdout r ++ [v]) r)
  else lift (inl UnicodeEncodeError).

(** The [while] loop of [print_msgs], unrolled at most [fuel] times. *)
Fixpoint print_loop (fuel : nat) : M state unit :=
  match fuel with
  | O => ret tt
  | S n =>
      r <- get ;;
      more <- lift (dict_contains (JInt (printed_id r + 1))
                                  (received_msgs r)) ;;
      if more : bool then
        modify (fun r => set_printed_id (printed_id r + 1) r) ;;
        r <- get ;;
        msg <- lift (dict_getitem (JInt (printed_id r))
                                  (received_msgs r)) ;;
        data <- lift (getitem msg (py "data")) ;;
        print data ;;
        print_loop n
      else ret tt
  end.

(** One more round than there are stored messages is always enough
    ([print_loop_enough] below). *)
Definition print_msgs : M state unit :=
  r <- get ;;
  print_loop (S (length (received_msgs r))).

(** The body of [for conn in socks], on the datagram [data] that
    [recvfrom] returned from [addr]. *)
Definition run_conn (data : string) (addr : pystr * Z) : M state unit :=
  try_except
    (r <- get ;;
     when (match remote_host r with None => true | Some _ => false end)
          (modify (set_remote (fst addr) (snd addr))) ;;
     msg <- lift (json_loads data) ;;
     cs <- lift (getitem msg (py "cs")) ;;
     payload <- lift (getitem msg (py "data")) ;;
     sum <- lift (checksum256 payload) ;;
     if negb (py_eq cs (JInt sum)) then
       log (LogText "corrupt msg")
     else
       id <- lift (getitem msg (py "id")) ;;
       r <- get ;;
       known <- lift (dict_contains id (received_msgs r)) ;;
       when (negb known)
            (id <- lift (getitem msg (py "id")) ;;
             modify (fun r =>
               set_received_msgs (dict_set id msg (received_msgs r)) r) ;;
             print_msgs) ;;
       log (LogMsg "Received data message" msg) ;;
       id <- lift (getitem msg (py "id")) ;;
       send (JObj [(py "id", id); (py "type", JStr (py "ack"))]))
    (fun _ => log (LogText "corrupt msg")).

(** [run] for as many rounds of [while True] as there are datagrams;
    [select] returns the socket alone in each. *)
Fixpoint run (arrivals : list (string * (pystr * Z))) : M state unit :=
  match arrivals with
  | [] => ret tt
  | (data, addr) :: rest => run_conn data addr ;; run rest
  end.

(** The states the receiver can be in. *)
Inductive reachable : state -> Prop :=
| reachable_init : reachable init
| reachable_conn r data addr :
    reachable r -> reachable (exec (run_conn data addr) r).
End Run.

End Receiver.

(** ** The sender ([send.py]) *)

Module Sender.

(** The remaining space for data in our packets. *)
Definition DATA_SIZE : Z := 1450.

(** [self], together with what it talks to: [clock] gives the successive
    results of [time.time()], [ticks] counts the calls made so far, and
    [wire] records the messages handed to the socket, oldest first. *)
Record state : Type := mk {
  id_generator : Z;
  window : Z;
  target_window : Z;
  last_msg_sent_time : float;
  msgs_waiting_ack : pydict;
  rtt : float;
  finished : bool;
  waiting : bool;
  alpha : float;
  clock : nat -> float;
  ticks : nat;
  wire : list json;
  stderr : list logline
}.

Definition set_id_generator (v : Z) (s : state) : state :=
  mk v (window s) (target_window s) (last_msg_sent_time s)
     (msgs_waiting_ack s) (rtt s) (finished s) (waiting s) (alpha s)
     (clock s) (ticks s) (wire s) (stderr s).
Definition set_window (v : Z) (s : state) : state :=
  mk (id_generator s) v (target_window s) (last_msg_sent_time s)
     (msgs_waiting_ack s) (rtt s) (finished s) (waiting s) (alpha s)
     (clock s) (ticks s) (wire s) (stderr s).
Definition set_target_window (v : Z) (s : state) : state :=
  mk (id_generator s) (window s) v (last_msg_sent_time s)
     (msgs_waiting_ack s) (rtt s) (finished s) (waiting s) (alpha s)
     (clock s) (ticks s) (wire s) (stderr s).
Definition set_last_msg_sent_time (v : float) (s : state) : state :=
  mk (id_generator s) (window s) (target_window s) v (msgs_waiting_ack s)
     (rtt s) (finished s) (waiting s) (alpha s) (clock s) (ticks s)
     (wire s) (stderr s).
Definition set_msgs_waiting_ack (v : pydict) (s : state) : state :=
  mk (id_generator s) (window s) (target_window s) (last_msg_sent_time s)
     v (rtt s) (finished s) (waiting s) (alpha s) (clock s) (ticks s)
     (wire s) (stderr s).
Definition set_rtt (v : float) (s : state) : state :=
  mk (id_generator s) (window s) (target_window s) (last_msg_sent_time s)
     (msgs_waiting_ack s) v (finished s) (waiting s) (alpha s) (clock s)
     (ticks s) (wire s) (stderr s).
Definition set_finished (v : bool) (s : state) : state :=
  mk (id_generator s) (window s) (target_window s) (last_msg_sent_time s)
     (msgs_waiting_ack s) (rtt s) v (waiting s) (alpha s) (clock s)
     (ticks s) (wire s) (stderr s).
Definition set_waiting (v : bool) (s : state) : state :=
  mk (id_generator s) (window s) (target_window s) (last_msg_sent_time s)
     (msgs_waiting_ack s) (rtt s) (finished s) v (alpha s) (clock s)
     (ticks s) (wire s) (stderr s).
Definition set_ticks (v : nat) (s : state) : state :=
  mk (id_generator s) (window s) (target_window s) (last_msg_sent_time s)
     (msgs_waiting_ack s) (rtt s) (finished s) (waiting s) (alpha s)
     (clock s) v (wire s) (stderr s).
Definition set_wire (v : list json) (s : state) : state :=
  mk (id_generator s) (window s) (target_window s) (last_msg_sent_time s)
     (msgs_waiting_ack s) (rtt s) (finished s) (waiting s) (alpha s)
     (clock s) (ticks s) v (stderr s).
Definition set_stderr (v : list logline) (s : state) : state :=
  mk (id_generator s) (window s) (target_window s) (last_msg_sent_time s)
     (msgs_waiting_ack s) (rtt s) (finished s) (waiting s) (alpha s)
     (clock s) (ticks s) (wire s) v.

(** The class attributes. *)
Definition init (clock : nat -> float) : state :=
  mk 0 4 16 0%float [] 0.5%float false false 0.875%float clock 0%nat [] [].

Definition time_time : M state float :=
  s <- get ;;
  modify (set_ticks (S (ticks s))) ;;
  ret (clock s (ticks s)).

Definition log (l : logline) : M state unit :=
  modify (fun s => set_stderr (stderr s ++ [l]) s).

(** [functools.reduce(lambda x,y:x+y, map(ord, st)) % 256] *)
Definition checksum256 (st : json) : Exc Z :=
  let? items := py_iter st in
  let? codes := emap ord items in
  let? total := reduce Z.add codes in
  inr (total mod 256).

Definition send (message : json) : M state unit :=
  modify (fun s => set_wire (wire s ++ [message]) s).

Definition send_msg (msg : json) : M state unit :=
  log (LogMsg "Sending message" msg) ;;
  send msg ;;
  now <- time_time ;;
  modify (set_last_msg_sent_time now) ;;
  s <- get ;;
  when (window s <=? len (msgs_waiting_ack s)) (modify (set_waiting true)).

(** The [for] loop of [retransmit_msgs] over the remaining values, [i]
    messages having been sent. *)
Fixpoint retransmit_loop (msgs : list json) (i : Z) : M state unit :=
  match msgs with
  | [] => ret tt
  | msg :: rest =>
      send_msg msg ;;
      let i := i + 1 in
      s <- get ;;
      if window s <=? i then ret tt else retransmit_loop rest i
  end.

Definition retransmit_msgs : M state unit :=
  now <- time_time ;;
  s <- get ;;
  let time_elapsed := (now - last_msg_sent_time s)%float in
  when (1.75 * rtt s <=? time_elapsed)%float
       (retransmit_loop (dict_values (msgs_waiting_ack s)) 0).

Definition update_time_out : M state unit :=
  s <- get ;;
  let kept := (alpha s * rtt s)%float in
  let weight := (1 - alpha s)%float in
  now <- time_time ;;
  modify (set_rtt (kept + weight * (now - last_msg_sent_time s))%float).

Definition congestion_control : M state unit :=
  now <- time_time ;;
  s <- get ;;
  let time_elapsed := (now - last_msg_sent_time s)%float in
  if (time_elapsed <? 1.75 * rtt s)%float then
    when (window s <? target_window s)
         (modify (set_window (window s + 1)))
  else if (1.75 * rtt s <? time_elapsed)%float
          && (target_window s <? 2 * window s)
          && (window s <? len (msgs_waiting_ack s) + 3) then
    modify (set_window 1) ;;
    when (2 <? target_window s)
         (modify (set_target_window (target_window s - 1)))
  else ret tt.

(** The message built for the chunk [data] under the id [id]. *)
Definition data_msg (id : Z) (data : pystr) (cs : Z) : json :=
  JObj [(py "id", JInt id); (py "type", JStr (py "msg"));
        (py "data", JStr data); (py "cs", JInt cs)].

(** The branch [elif conn == sys.stdin], [data] being what
    [sys.stdin.read(DATA_SIZE)] returned. *)
Definition on_stdin (data : pystr) : M state unit :=
  if len data =? 0 then
    log (LogText "All done!") ;;
    modify (set_finished true)
  else
    modify (fun s => set_id_generator (id_generator s + 1) s) ;;
    s <- get ;;
    cs <- lift (checksum256 (JStr data)) ;;
    let msg := data_msg (id_generator s) data cs in
    modify (fun s =>
      set_msgs_waiting_ack
        (dict_set (JInt (id_generator s)) msg (msgs_waiting_ack s)) s) ;;
    send_msg msg.

(** What [select] reports in one round: a datagram waiting on the socket,
    a chunk waiting on standard input. *)
Record ready : Type := mk_ready {
  on_sock : option string;
  on_input : option pystr
}.

Section Run.
(** [json.loads(k.decode('utf-8'))]: library code.  It returns a value or
    raises: a [ValueError] on text that is not JSON, a [RecursionError] on
    text that is nested too deeply. *)
Variable json_loads : string -> Exc json.

(** The branch [if conn == self.socket], on the datagram [k]. *)
Definition on_socket (k : string) : M state unit :=
  try_except
    (msg <- lift (json_loads k) ;;
     log (LogMsg "Received message" msg) ;;
     id <- lift (getitem msg (py "id")) ;;
     s <- get ;;
     pending <- lift (dict_contains id (msgs_waiting_ack s)) ;;
     is_ack <- (if pending : bool then
                  ty <- lift (getitem msg (py "type")) ;;
                  ret (py_eq ty (JStr (py "ack")))
                else ret false) ;;
     when is_ack
          (id <- lift (getitem msg (py "id")) ;;
           modify (fun s =>
             set_msgs_waiting_ack (dict_pop id (msgs_waiting_ack s)) s)) ;;
     modify (set_waiting false) ;;
     update_time_out)
    (fun e => log (LogExn e) ;; log (LogText "corrupt msg")).

(** One round of [while True]; the result tells whether [run] returned. *)
Definition run_round (ev : ready) : M state bool :=
  s <- get ;;
  let with_stdin := negb (waiting s) && negb (finished s) in
  match on_sock ev with
  | Some k => on_socket k
  | None => ret tt
  end ;;
  match on_input ev with
  | Some data => when with_stdin (on_stdin data)
  | None => ret tt
  end ;;
  s <- get ;;
  if finished s && (len (msgs_waiting_ack s) =? 0) then ret true
  else
    congestion_control ;;
    retransmit_msgs ;;
    ret false.

Fixpoint run (rounds : list ready) : M state bool :=
  match rounds with
  | [] => ret false
  | ev :: rest =>
      stop <- run_round ev ;;
      if stop : bool then ret true else run rest
  end.

(** The operations of the sender, each as the loop can invoke it: a new
    chunk is read only while neither [waiting] nor [finished] is set. *)
Inductive step : state -> state -> Prop :=
| step_socket s k : step s (exec (on_socket k) s)
| step_stdin s data :
    waiting s = false -> finished s = false ->
    step s (exec (on_stdin data) s)
| step_congestion s : step s (exec congestion_control s)
| step_retransmit s : step s (exec retransmit_msgs s).

Inductive reachable : state -> Prop :=
| reachable_init clock : reachable (init clock)
| reachable_step s s' : reachable s -> step s s' -> reachable s'.
End Run.

End Sender.

(** ** Sample datagrams and clocks

    Concrete inputs for the examples below.  The texts are what
    [json.dumps] produces for the messages next to them. *)

Definition dq : string := String (ascii_of_nat 34) EmptyString.

Definition quoted (s : string) : string := (dq ++ s ++ dq)%string.

Definition ack_text (id : string) : string :=
  ("{" ++ quoted "id" ++ ": " ++ id ++ ", "
       ++ quoted "type" ++ ": " ++ quoted "ack" ++ "}")%string.

Definition data_text (id data cs : string) : string :=
  ("{" ++ quoted "id" ++ ": " ++ id ++ ", "
       ++ quoted "type" ++ ": " ++ quoted "msg" ++ ", "
       ++ quoted "data" ++ ": " ++ quoted data ++ ", "
       ++ quoted "cs" ++ ": " ++ cs ++ "}")%string.

(** The acknowledgment of [id]. *)
Definition ack_msg (id : json) : json :=
  JObj [(py "id", id); (py "type", JStr (py "ack"))].

(** A decoder for the datagrams of the examples, which returns on them what
    [json.loads] returns; any other text is taken to be malformed. *)
Definition sample_loads (data : string) : Exc json :=
  if (data =? ack_text "99")%string then inr (ack_msg (JInt 99))
  else if (data =? ack_text "1")%string then inr (ack_msg (JInt 1))
  else if (data =? data_text "1" "AB" "131")%string
       then inr (Sender.data_msg 1 (py "AB") 131)
  else if (data =? data_text "2" "CD" "135")%string
       then inr (Sender.data_msg 2 (py "CD") 135)
  else if (data =? data_text "1" "AB" "7")%string
       then inr (Sender.data_msg 1 (py "AB") 7)
  else if (data =? data_text "3" "" "0")%string
       then inr (Sender.data_msg 3 [] 0)
  else inl ValueError.

(** Standard output in UTF-8: every [str] can be encoded but those with a
    surrogate (U+D800 to U+DFFF); of any other value [print] writes the
    [repr], in which surrogates are escaped. *)
Definition utf8_strict (v : json) : bool :=
  match v with
  | JStr s => forallb (fun c => negb ((55296 <=? c) && (c <=? 57343))) s
  | _ => true
  end.

(** Datagrams as a peer can send them, with what [json.loads] makes of
    them: a message whose payload is the lone surrogate U+D800, one without
    a [type], one whose fields have other types than the sender gives them,
    and two thousand opening brackets, on which [json.loads] raises
    [RecursionError]. *)
Definition lone_text : string := data_text "1" "\ud800" "0".

Definition lone_msg : json := Sender.data_msg 1 [55296] 0.

Definition untyped_text : string :=
  ("{" ++ quoted "id" ++ ": 1, "
       ++ quoted "data" ++ ": " ++ quoted "AB" ++ ", "
       ++ quoted "cs" ++ ": 131}")%string.

Definition untyped_msg : json :=
  JObj [(py "id", JInt 1); (py "data", JStr (py "AB")); (py "cs", JInt 131)].

Definition mistyped_text : string :=
  ("{" ++ quoted "id" ++ ": " ++ quoted "x" ++ ", "
       ++ quoted "type" ++ ": 7, "
       ++ quoted "data" ++ ": [" ++ quoted "A" ++ ", " ++ quoted "B" ++ "], "
       ++ quoted "cs" ++ ": 131.0}")%string.

Definition mistyped_msg : json :=
  JObj [(py "id", JStr (py "x")); (py "type", JInt 7);
        (py "data", JList [JStr (py "A"); JStr (py "B")]);
        (py "cs", JFloat 131%float)].

Definition deep_text : string :=
  String.concat EmptyString (repeat "["%string 2000%nat).

(** [sample_loads] extended to them. *)
Definition odd_loads (data : string) : Exc json :=
  if (data =? lone_text)%string then inr lone_msg
  else if (data =? untyped_text)%string then inr untyped_msg
  else if (data =? mistyped_text)%string then inr mistyped_msg
  else if (data =? deep_text)%string then inl RecursionError
  else sample_loads data.

(** A clock that stands at 1000 s for its first 42 readings and at 1002 s
    afterwards: a burst of work followed by two seconds of silence. *)
Definition burst_clock (i : nat) : float :=
  if (i <? 42)%nat then 1000%float else 1002%float.

(** A round in which one chunk is waiting on standard input, and one in
    which nothing is ready. *)
Definition chunk_round : Sender.ready :=
  Sender.mk_ready None (Some (py "A")).

Definition idle_round : Sender.ready := Sender.mk_ready None None.

(** Fourteen chunks read within the same instant: sixteen may be pending. *)
Definition filled : Sender.state :=
  exec (Sender.run sample_loads (repeat chunk_round 14))
       (Sender.init burst_clock).

(** The same, followed by a round two seconds later with nothing to read. *)
Definition collapsed : Sender.state :=
  exec (Sender.run sample_loads (repeat chunk_round 14 ++ [idle_round]))
       (Sender.init burst_clock).

(** The peer of the receiver, a stream of two chunks, and its messages
    arriving as 2, 1, 2. *)
Definition peer : pystr * Z := (py "127.0.0.1", 5000).


Definition reordered : list (string * (pystr * Z)) :=
  [(data_text "2" "CD" "135", peer);
   (data_text "1" "AB" "131", peer);
   (data_text "2" "CD" "135", peer)].

(** ** Vocabulary of the statements *)

(** The sum of the character codes of a chunk. *)
Definition code_sum (b : pystr) : Z := fold_right Z.add 0 b.

(** What no operation of the sender but [congestion_control] changes. *)
Definition same_window (s s' : Sender.state) : Prop :=
  Sender.window s' = Sender.window s /\
  Sender.target_window s' = Sender.target_window s.

Definition window_inv (s : Sender.state) : Prop :=
  1 <= Sender.window s <= Sender.target_window s /\
  2 <= Sender.target_window s <= 16.

(** What the first datagram teaches the receiver about its peer. *)
Definition learn (addr : pystr * Z) (r : Receiver.state) : Receiver.state :=
  match Receiver.remote_host r with
  | None => Receiver.set_remote (fst addr) (snd addr) r
  | Some _ => r
  end.

(** The number of stored keys equal to an integer above [p]. *)
Definition above (p : Z) (d : pydict) : nat :=
  length (filter (fun kv => match key_int (fst kv) with
                            | Some z => p <? z
                            | None => false
                            end) d).

(** Every stored message has a [data] field. *)
Definition stored_ok (d : pydict) : Prop :=
  Forall (fun kv => exists payload, getitem (snd kv) (py "data") = inr payload)
         d.

(** The log entry and the acknowledgment that end the handling of a valid
    message. *)
Definition acknowledge (msg id : json) (r : Receiver.state)
  : Receiver.state :=
  Receiver.set_sent (Receiver.sent r ++ [ack_msg id])
    (Receiver.set_stderr
       (Receiver.stderr r ++ [LogMsg "Received data message" msg]) r).

Definition discard (r : Receiver.state) : Receiver.state :=
  Receiver.set_stderr (Receiver.stderr r ++ [LogText "corrupt msg"]) r.

(** The payload with the id [i], ids counting from 1. *)
Definition payload_of (payloads : list pystr) (i : Z) : pystr :=
  nth (Z.to_nat (i - 1)) payloads [].

(** The message the sender frames for it. *)
Definition message (payloads : list pystr) (i : Z) : json :=
  Sender.data_msg i (payload_of payloads i)
                  (code_sum (payload_of payloads i) mod 256).

Section Decoding.
Variable json_loads : string -> Exc json.

(** The datagrams the receiver drops: text on which [json.loads] raises an
    exception that is caught, a value without the fields [cs], [data] and
    [id], a payload that has no checksum, a checksum that differs from
    [cs], an id that cannot be a key. *)
Inductive rejected (data : string) : Prop :=
| rejected_malformed e :
    json_loads data = inl e -> caught e = true -> rejected data
| rejected_cs msg e :
    json_loads data = inr msg ->
    getitem msg (py "cs") = inl e -> rejected data
| rejected_data msg cs e :
    json_loads data = inr msg ->
    getitem msg (py "cs") = inr cs ->
    getitem msg (py "data") = inl e -> rejected data
| rejected_payload msg cs payload e :
    json_loads data = inr msg ->
    getitem msg (py "cs") = inr cs ->
    getitem msg (py "data") = inr payload ->
    Receiver.checksum256 payload = inl e -> rejected data
| rejected_checksum msg cs payload sum :
    json_loads data = inr msg ->
    getitem msg (py "cs") = inr cs ->
    getitem msg (py "data") = inr payload ->
    Receiver.checksum256 payload = inr sum ->
    py_eq cs (JInt sum) = false -> rejected data
| rejected_id msg cs payload sum e :
    json_loads data = inr msg ->
    getitem msg (py "cs") = inr cs ->
    getitem msg (py "data") = inr payload ->
    Receiver.checksum256 payload = inr sum ->
    py_eq cs (JInt sum) = true ->
    getitem msg (py "id") = inl e -> rejected data
| rejected_key msg cs payload sum id :
    json_loads data = inr msg ->
    getitem msg (py "cs") = inr cs ->
    getitem msg (py "data") = inr payload ->
    Receiver.checksum256 payload = inr sum ->
    py_eq cs (JInt sum) = true ->
    getitem msg (py "id") = inr id ->
    hashable id = false -> rejected data.

(** The datagrams that carry a valid message [msg] with the id [id]. *)
Inductive accepted (data : string) (msg id : json) : Prop :=
| accepted_intro cs payload sum :
    json_loads data = inr msg ->
    getitem msg (py "cs") = inr cs ->
    getitem msg (py "data") = inr payload ->
    Receiver.checksum256 payload = inr sum ->
    py_eq cs (JInt sum) = true ->
    getitem msg (py "id") = inr id ->
    hashable id = true -> accepted data msg id.


End Decoding.

(** A message as the sender frames it, with a payload that is not empty. *)
Definition framed (m : json) : Prop :=
  exists id data cs, m = Sender.data_msg id data cs /\ data <> [].




(** Every stored message has a [data] field that standard output can
    encode. *)
Definition stored_printable (printable : json -> bool) (d : pydict) : Prop :=
  Forall (fun kv => exists payload,
                      getitem (snd kv) (py "data") = inr payload /\
                      printable payload = true) d.

(** The bytes of a character in UTF-8, the encoding in which a chunk comes
    from standard input and goes to standard output, and those of a
    chunk. *)
Definition utf8 (c : Z) : list Z :=
  if c <? 128 then [c]
  else if c <? 2048 then [192 + c / 64; 128 + c mod 64]
  else if c <? 65536 then
    [224 + c / 4096; 128 + (c / 64) mod 64; 128 + c mod 64]
  else [240 + c / 262144; 128 + (c / 4096) mod 64;
        128 + (c / 64) mod 64; 128 + c mod 64].

Definition utf8_bytes (b : pystr) : list Z := flat_map utf8 b.

(** ** Vocabulary of the further properties *)

(** The ids under which messages are pending, oldest first. *)
Definition pending_ids (s : Sender.state) : list json :=
  map fst (Sender.msgs_waiting_ack s).

(** The keys of [d] are integers that grow, all above [lo] and up to [hi],
    and each is the id of the message stored under it. *)
Fixpoint ids_between (lo hi : Z) (d : pydict) : Prop :=
  match d with
  | [] => True
  | (k, v) :: rest =>
      exists i data,
        k = JInt i /\ v = Sender.data_msg i data (code_sum data mod 256) /\
        data <> [] /\ lo < i <= hi /\ ids_between i hi rest
  end.

(** The datagrams the sender cannot read as a message: text on which
    [json.loads] raises an exception that is caught, a value without an
    [id], an [id] that cannot be a key, a pending [id] without a [type]. *)
Inductive unreadable (json_loads : string -> Exc json) (d : pydict)
          (k : string) : list logline -> Prop :=
| unreadable_malformed e :
    json_loads k = inl e ->
    caught e = true ->
    unreadable json_loads d k [LogExn e; LogText "corrupt msg"]
| unreadable_id msg e :
    json_loads k = inr msg ->
    getitem msg (py "id") = inl e ->
    unreadable json_loads d k
      [LogMsg "Received message" msg; LogExn e; LogText "corrupt msg"]
| unreadable_key msg id :
    json_loads k = inr msg ->
    getitem msg (py "id") = inr id ->
    hashable id = false ->
    unreadable json_loads d k
      [LogMsg "Received message" msg; LogExn TypeError;
       LogText "corrupt msg"]
| unreadable_type msg id e :
    json_loads k = inr msg ->
    getitem msg (py "id") = inr id ->
    hashable id = true ->
    dict_find id d <> None ->
    getitem msg (py "type") = inl e ->
    unreadable json_loads d k
      [LogMsg "Received message" msg; LogExn e; LogText "corrupt msg"].

(** The exception with which a round of the sender ends before anything
    has changed: one that [json.loads] raises on the datagram of the round
    and that is not caught. *)
Definition fatal (json_loads : string -> Exc json) (ev : Sender.ready)
  : option exn :=
  match Sender.on_sock ev with
  | Some k =>
      match json_loads k with
      | inl e => if caught e then None else Some e
      | inr _ => None
      end
  | None => None
  end.

(** The state after the events of a round, before the test for the end. *)
Definition after_events (json_loads : string -> Exc json)
           (ev : Sender.ready) (s : Sender.state) : Sender.state :=
  let s1 := match Sender.on_sock ev with
            | Some k => exec (Sender.on_socket json_loads k) s
            | None => s
            end in
  match Sender.on_input ev with
  | Some data =>
      if negb (Sender.waiting s) && negb (Sender.finished s)
      then exec (Sender.on_stdin data) s1 else s1
  | None => s1
  end.

(** The id a datagram is acknowledged with, if it carries a valid message:
    the checks of the receiver, in its order. *)
Definition valid_id (json_loads : string -> Exc json) (data : string)
  : option json :=
  match json_loads data with
  | inr msg =>
      match getitem msg (py "cs"), getitem msg (py "data") with
      | inr cs, inr payload =>
          match Receiver.checksum256 payload with
          | inr sum =>
              if py_eq cs (JInt sum) then
                match getitem msg (py "id") with
                | inr id => if hashable id then Some id else None
                | inl _ => None
                end
              else None
          | inl _ => None
          end
      | _, _ => None
      end
  | inl _ => None
  end.

(** The [data] of the message stored under the id [i]. *)
Definition stored_data (d : pydict) (i : Z) : json :=
  match dict_find (JInt i) d with
  | Some msg =>
      match getitem msg (py "data") with
      | inr payload => payload
      | inl _ => JNull
      end
  | None => JNull
  end.

(** The [n] ids from [lo] on. *)
Definition ids_from (lo : Z) (n : nat) : list Z :=
  map (fun k => lo + Z.of_nat k) (seq 0 n).

(** The last call of [print], if there was one, returned: the message under
    the cursor could be written. *)
Definition last_printed (printable : json -> bool) (r : Receiver.state)
  : Prop :=
  Receiver.printed_id r = 0 \/
  printable (stored_data (Receiver.received_msgs r) (Receiver.printed_id r))
  = true.

(** What holds of the cursor and the output at every turn of the loop of
    [print_msgs]: the ids up to the cursor are stored, and what has been
    printed is the data stored under them that standard output can encode,
    in the order of the ids. *)
Definition cursor_core (printable : json -> bool) (r : Receiver.state)
  : Prop :=
  0 <= Receiver.printed_id r /\
  (forall i, 1 <= i <= Receiver.printed_id r ->
             exists msg payload,
               dict_find (JInt i) (Receiver.received_msgs r) = Some msg /\
               getitem msg (py "data") = inr payload) /\
  Receiver.stdout r
  = filter printable
           (map (stored_data (Receiver.received_msgs r))
                (ids_from 1 (Z.to_nat (Receiver.printed_id r)))).

(** The cursor and the output: the ids up to the cursor are stored, what
    has been printed is the data stored under them that standard output can
    encode, in the order of the ids, and the cursor stands at the first gap
    unless the last call of [print] raised. *)
Definition cursor_ok (printable : json -> bool) (r : Receiver.state)
  : Prop :=
  0 <= Receiver.printed_id r /\
  (forall i, 1 <= i <= Receiver.printed_id r ->
             exists msg payload,
               dict_find (JInt i) (Receiver.received_msgs r) = Some msg /\
               getitem msg (py "data") = inr payload) /\
  Receiver.stdout r
  = filter printable
           (map (stored_data (Receiver.received_msgs r))
                (ids_from 1 (Z.to_nat (Receiver.printed_id r)))) /\
  (last_printed printable r ->
   dict_find (JInt (Receiver.printed_id r + 1)) (Receiver.received_msgs r)
   = None).

(** A datagram whose [data], if it has one, standard output can encode. *)
Definition clean (json_loads : string -> Exc json)
           (printable : json -> bool) (data : string) : Prop :=
  forall msg payload,
    json_loads data = inr msg ->
    getitem msg (py "data") = inr payload ->
    printable payload = true.

(** Rounds in which standard input has the chunk [AB], or has reached its
    end, and the sender after one such round; the receiver after the
    arrivals of [reordered]. *)
Definition ab_round : Sender.ready := Sender.mk_ready None (Some (py "AB")).

Definition eof_round : Sender.ready := Sender.mk_ready None (Some []).

Definition first_sent : Sender.state :=
  exec (Sender.run sample_loads [ab_round]) (Sender.init burst_clock).

Definition closed : Sender.state :=
  exec (Sender.run sample_loads [eof_round]) (Sender.init burst_clock).

Definition delivered : Receiver.state :=
  exec (Receiver.run sample_loads utf8_strict reordered) Receiver.init.

(** * Properties *)

(** ** Floating-point comparisons *)

Lemma SFcompare_Lt_swap (x y : spec_float) :
  SFcompare x y = Some Lt -> SFcompare y x = Some Gt.
Proof.
  destruct x as [sx| sx | |sx mx ex], y as [sy|sy| |sy my ey]; simpl;
    try discriminate;
    try (destruct sx; simpl; congruence);
    try (destruct sy; simpl; congruence);
    try (destruct sx, sy; simpl; congruence).
  change (Pos.compare_cont Eq mx my) with (Pos.compare mx my).
  change (Pos.compare_cont Eq my mx) with (Pos.compare my mx).
  rewrite (Z.compare_antisym ex ey), (Pos.compare_antisym mx my).
  destruct sx, sy; try congruence;
    destruct (Z.compare ex ey); simpl; try congruence;
    destruct (Pos.compare mx my); simpl; congruence.
Qed.

(** [a < b] excludes [b < a] and [b <= a]. *)
Lemma ltb_asym (a b : float) :
  (a <? b)%float = true -> (b <? a)%float = false.
Proof.
  rewrite !ltb_spec. unfold SFltb. intros H.
  destruct (SFcompare (Prim2SF a) (Prim2SF b)) as [[]|] eqn:E; try discriminate.
  now rewrite (SFcompare_Lt_swap _ _ E).
Qed.

Lemma ltb_not_leb (a b : float) :
  (a <? b)%float = true -> (b <=? a)%float = false.
Proof.
  rewrite ltb_spec, leb_spec. unfold SFltb, SFleb. intros H.
  destruct (SFcompare (Prim2SF a) (Prim2SF b)) as [[]|] eqn:E; try discriminate.
  now rewrite (SFcompare_Lt_swap _ _ E).
Qed.

(** ** The checksum *)

Lemma emap_ord_chars (b : pystr) :
  emap ord (map (fun c => JStr [c]) b) = inr b.
Proof.
  induction b as [|c b IH]; simpl; [reflexivity|].
  now rewrite IH.
Qed.

Lemma fold_left_add (l : list Z) (a : Z) :
  fold_left Z.add l a = a + code_sum l.
Proof.
  revert a. induction l as [|x l IH]; intros a; simpl; [lia|].
  rewrite IH. unfold code_sum. lia.
Qed.

Lemma receiver_checksum256_str (b : pystr) :
  Receiver.checksum256 (JStr b) =
  match b with [] => inl TypeError | _ => inr (code_sum b mod 256) end.
Proof.
  unfold Receiver.checksum256. simpl. rewrite emap_ord_chars. simpl.
  destruct b as [|c b]; simpl; [reflexivity|].
  now rewrite fold_left_add.
Qed.

Lemma sender_checksum256_eq (st : json) :
  Sender.checksum256 st = Receiver.checksum256 st.
Proof. reflexivity. Qed.

(** ** Exceptions *)

(** A subscript raises only what the two programs catch. *)
Lemma getitem_caught (o : json) (key : pystr) (e : exn) :
  getitem o key = inl e -> caught e = true.
Proof.
  unfold getitem. destruct o; try (intros H; injection H as <-; reflexivity).
  destruct (assoc key fields); [discriminate|].
  intros H. injection H as <-. reflexivity.
Qed.

(** ** The sender's window *)

Ltac unfold_m :=
  cbv beta iota zeta delta
    [exec bind ret lift get modify when try_except
     Sender.time_time Sender.log Sender.send Sender.send_msg
     Sender.update_time_out Sender.congestion_control
     Sender.retransmit_msgs Sender.on_stdin Sender.on_socket].

Section SenderFacts.
Import Sender.
Variable json_loads : string -> Exc json.

Lemma send_msg_eq (msg : json) (s : state) :
  send_msg msg s =
  (inr tt,
   let s1 :=
     set_last_msg_sent_time (clock s (ticks s))
       (set_ticks (S (ticks s))
          (set_wire (wire s ++ [msg])
             (set_stderr (stderr s ++ [LogMsg "Sending message" msg]) s))) in
   if window s <=? len (msgs_waiting_ack s) then set_waiting true s1
   else s1).
Proof.
  destruct s. unfold_m. simpl.
  destruct (_ <=? _); reflexivity.
Qed.

Lemma update_time_out_eq (s : state) :
  update_time_out s =
  (inr tt,
   set_rtt (alpha s * rtt s
            + (1 - alpha s) * (clock s (ticks s) - last_msg_sent_time s))%float
     (set_ticks (S (ticks s)) s)).
Proof. destruct s. reflexivity. Qed.

Lemma congestion_control_eq (s : state) :
  congestion_control s =
  (inr tt,
   let s1 := set_ticks (S (ticks s)) s in
   let time_elapsed := (clock s (ticks s) - last_msg_sent_time s)%float in
   if (time_elapsed <? 1.75 * rtt s)%float then
     if window s <? target_window s then set_window (window s + 1) s1
     else s1
   else if (1.75 * rtt s <? time_elapsed)%float
           && (target_window s <? 2 * window s)
           && (window s <? len (msgs_waiting_ack s) + 3) then
     if 2 <? target_window s then
       set_target_window (target_window s - 1) (set_window 1 s1)
     else set_window 1 s1
   else s1).
Proof.
  destruct s. unfold_m. simpl.
  repeat match goal with
         | |- context [if ?c then _ else _] => destruct c; simpl
         end; reflexivity.
Qed.

Lemma send_msg_fields (msg : json) (s : state) :
  let s' := exec (send_msg msg) s in
  same_window s s' /\
  msgs_waiting_ack s' = msgs_waiting_ack s /\
  rtt s' = rtt s /\ alpha s' = alpha s /\ clock s' = clock s /\
  id_generator s' = id_generator s /\ finished s' = finished s /\
  wire s' = wire s ++ [msg] /\ ticks s' = S (ticks s) /\
  last_msg_sent_time s' = clock s (ticks s).
Proof.
  unfold exec, same_window. rewrite send_msg_eq. destruct s. simpl.
  destruct (_ <=? _); simpl; tauto.
Qed.

Lemma retransmit_loop_cons (msg : json) (rest : list json) (i : Z)
      (s : state) :
  retransmit_loop (msg :: rest) i s =
  let s1 := exec (send_msg msg) s in
  if window s1 <=? i + 1 then (inr tt, s1)
  else retransmit_loop rest (i + 1) s1.
Proof.
  cbn [retransmit_loop]. unfold bind, exec, get. rewrite send_msg_eq.
  cbn [fst snd]. cbv zeta.
  match goal with |- context [window ?x <=? i + 1] =>
    destruct (window x <=? i + 1) end; reflexivity.
Qed.

(** The [for] loop sends the first [window - i] values, or all of them
    when there are fewer, and reads the clock once for each. *)
Lemma retransmit_loop_eq (msgs : list json) :
  forall (i : Z) (s : state),
    0 <= i < window s ->
    let n := Nat.min (Z.to_nat (window s - i)) (length msgs) in
    let s' := exec (retransmit_loop msgs i) s in
    fst (retransmit_loop msgs i s) = inr tt /\
    wire s' = wire s ++ firstn n msgs /\
    ticks s' = (ticks s + n)%nat /\
    last_msg_sent_time s' =
      match n with
      | O => last_msg_sent_time s
      | S m => clock s (ticks s + m)%nat
      end /\
    same_window s s' /\
    msgs_waiting_ack s' = msgs_waiting_ack s /\
    rtt s' = rtt s /\ alpha s' = alpha s /\ clock s' = clock s /\
    id_generator s' = id_generator s /\ finished s' = finished s.
Proof.
  unfold same_window.
  induction msgs as [|msg rest IH]; intros i s Hi.
  - rewrite Nat.min_0_r. simpl. rewrite app_nil_r, Nat.add_0_r. tauto.
  - cbv zeta. unfold exec. rewrite retransmit_loop_cons. cbv zeta.
    pose proof (send_msg_fields msg s) as F. cbv zeta in F.
    destruct F as ((Fw & Ft) & Fm & Fr & Fa & Fc & Fi & Ff & Fwire & Ftk & Fl).
    set (s1 := exec (send_msg msg) s) in *.
    rewrite Fw.
    destruct (window s <=? i + 1) eqn:E.
    + apply Z.leb_le in E.
      replace (Z.to_nat (window s - i)) with 1%nat by lia.
      cbn [Nat.min length firstn fst snd].
      rewrite Fwire, Ftk, Fl, Fw, Ft, Fm, Fr, Fa, Fc, Fi, Ff.
      rewrite Nat.add_0_r. repeat split; try reflexivity; lia.
    + apply Z.leb_gt in E.
      specialize (IH (i + 1) s1).
      rewrite Fw in IH. specialize (IH ltac:(lia)).
      cbv zeta in IH. unfold exec in IH.
      destruct IH as (I0 & I1 & I2 & I3 & (I4 & I5) & I6 & I7 & I8 & I9 & I10 & I11).
      replace (Z.to_nat (window s - i))
        with (S (Z.to_nat (window s - (i + 1)))) by lia.
      cbn [Nat.min length firstn].
      rewrite I0, I1, I2, I3, I4, I5, I6, I7, I8, I9, I10, I11.
      rewrite ?Fwire, ?Ftk, ?Fl, ?Fw, ?Ft, ?Fm, ?Fr, ?Fa, ?Fc, ?Fi, ?Ff.
      rewrite <- app_assoc. cbn [app].
      repeat split; try reflexivity; try lia.
      destruct (Nat.min _ _) as [|m]; [now rewrite Nat.add_0_r|].
      f_equal. lia.
Qed.

Lemma retransmit_msgs_eq (s : state) :
  retransmit_msgs s =
  let s1 := set_ticks (S (ticks s)) s in
  if (1.75 * rtt s <=? clock s (ticks s) - last_msg_sent_time s)%float
  then retransmit_loop (dict_values (msgs_waiting_ack s)) 0 s1
  else (inr tt, s1).
Proof.
  destruct s. unfold_m. simpl. destruct (_ <=? _)%float; reflexivity.
Qed.

Lemma sender_checksum256_chunk (c : Z) (rest : pystr) :
  checksum256 (JStr (c :: rest)) = inr (code_sum (c :: rest) mod 256).
Proof. now rewrite sender_checksum256_eq, receiver_checksum256_str. Qed.

Lemma on_stdin_empty (s : state) :
  on_stdin [] s =
  (inr tt, set_finished true (set_stderr (stderr s ++ [LogText "All done!"]) s)).
Proof. destruct s. reflexivity. Qed.

Lemma on_stdin_chunk (c : Z) (rest : pystr) (s : state) :
  on_stdin (c :: rest) s =
  let id := id_generator s + 1 in
  let msg := data_msg id (c :: rest) (code_sum (c :: rest) mod 256) in
  send_msg msg
    (set_msgs_waiting_ack (dict_set (JInt id) msg (msgs_waiting_ack s))
       (set_id_generator id s)).
Proof.
  unfold on_stdin.
  replace (len (c :: rest) =? 0) with false
    by (symmetry; apply Z.eqb_neq; unfold len; simpl length; lia).
  unfold bind, modify, get, lift. rewrite sender_checksum256_chunk.
  destruct s. reflexivity.
Qed.

Ltac break_match :=
  match goal with
  | |- context [match ?x with _ => _ end] =>
      lazymatch x with
      | context [match _ with _ => _ end] => fail
      | _ => destruct x eqn:?
      end
  end.

(** What [on_socket] does when [json.loads] raises: it logs an exception
    that is caught, and lets any other through. *)
Lemma on_socket_raised (k : string) (s : state) (e : exn) :
  json_loads k = inl e ->
  on_socket json_loads k s =
  if caught e then
    (inr tt, set_stderr (stderr s ++ [LogExn e; LogText "corrupt msg"]) s)
  else (inl e, s).
Proof.
  intros Hl. unfold on_socket, try_except, bind, lift. rewrite Hl.
  destruct (caught e); [|reflexivity].
  destruct s. unfold log, modify. simpl. rewrite <- app_assoc. reflexivity.
Qed.

(** A message without an [id], or with one that cannot be a key. *)
Lemma on_socket_no_id (k : string) (s : state) (msg : json) (e : exn) :
  json_loads k = inr msg ->
  getitem msg (py "id") = inl e ->
  on_socket json_loads k s =
  (inr tt,
   set_stderr (stderr s ++ [LogMsg "Received message" msg; LogExn e;
                            LogText "corrupt msg"]) s).
Proof.
  intros Hl Hid. unfold on_socket, try_except, bind, lift.
  rewrite Hl. unfold log, modify, get. rewrite Hid.
  rewrite (getitem_caught _ _ _ Hid).
  destruct s. simpl. rewrite <- !app_assoc. reflexivity.
Qed.

Lemma on_socket_bad_key (k : string) (s : state) (msg id : json) :
  json_loads k = inr msg ->
  getitem msg (py "id") = inr id ->
  hashable id = false ->
  on_socket json_loads k s =
  (inr tt,
   set_stderr (stderr s ++ [LogMsg "Received message" msg; LogExn TypeError;
                            LogText "corrupt msg"]) s).
Proof.
  intros Hl Hid Hh. unfold on_socket, try_except, bind, lift.
  rewrite Hl. unfold log, modify, get. rewrite Hid.
  unfold dict_contains. rewrite Hh.
  destruct s. simpl. rewrite <- !app_assoc. reflexivity.
Qed.

Lemma on_socket_decoded (k : string) (s : state) (msg id : json) :
  json_loads k = inr msg ->
  getitem msg (py "id") = inr id ->
  hashable id = true ->
  on_socket json_loads k s =
  let s0 := set_stderr (stderr s ++ [LogMsg "Received message" msg]) s in
  match dict_find id (msgs_waiting_ack s) with
  | None => update_time_out (set_waiting false s0)
  | Some _ =>
      match getitem msg (py "type") with
      | inl e =>
          (inr tt,
           set_stderr (stderr s0 ++ [LogExn e; LogText "corrupt msg"]) s0)
      | inr ty =>
          update_time_out
            (set_waiting false
               (if py_eq ty (JStr (py "ack")) then
                  set_msgs_waiting_ack (dict_pop id (msgs_waiting_ack s)) s0
                else s0))
      end
  end.
Proof.
  intros Hl Hid Hh. destruct s. unfold on_socket, try_except, bind, lift.
  rewrite Hl. unfold log, modify, get. rewrite Hid.
  cbn [msgs_waiting_ack set_stderr stderr]. unfold dict_contains.
  rewrite Hh. cbv zeta.
  destruct (dict_find id msgs_waiting_ack0).
  - destruct (getitem msg (py "type")) as [e|ty] eqn:Hty.
    + rewrite (getitem_caught _ _ _ Hty). rewrite <- app_assoc.
      reflexivity.
    + unfold ret, when. destruct (py_eq ty (JStr (py "ack")));
        reflexivity.
  - reflexivity.
Qed.

(** A datagram changes nothing but [rtt], [waiting], the clock's count and
    the log, and removes at most one pending message; the only exception
    that leaves the handler is one of [json.loads] that is not caught, and
    then nothing has changed. *)
Lemma on_socket_fields (k : string) (s : state) :
  let s' := exec (on_socket json_loads k) s in
  (fst (on_socket json_loads k s) = inr tt \/
   exists e, json_loads k = inl e /\ caught e = false /\
             on_socket json_loads k s = (inl e, s)) /\
  same_window s s' /\
  id_generator s' = id_generator s /\ finished s' = finished s /\
  wire s' = wire s /\ last_msg_sent_time s' = last_msg_sent_time s /\
  alpha s' = alpha s /\ clock s' = clock s /\
  (waiting s' = false \/ waiting s' = waiting s) /\
  (msgs_waiting_ack s' = msgs_waiting_ack s \/
   exists id, msgs_waiting_ack s' = dict_pop id (msgs_waiting_ack s)).
Proof.
  unfold same_window, exec. destruct (json_loads k) as [e|msg] eqn:Hl.
  - rewrite (on_socket_raised k s e Hl). destruct (caught e) eqn:C.
    + destruct s. simpl. repeat split; auto.
    + split; [right; exists e; auto|]. simpl. repeat split; auto.
  - destruct (getitem msg (py "id")) as [e|id] eqn:Hid.
    + rewrite (on_socket_no_id k s msg e Hl Hid).
      destruct s. simpl. repeat split; auto.
    + destruct (hashable id) eqn:Hh.
      * rewrite (on_socket_decoded k s msg id Hl Hid Hh). cbv zeta.
        destruct (dict_find id (msgs_waiting_ack s));
          [destruct (getitem msg (py "type")) as [e|ty];
           [|destruct (py_eq ty (JStr (py "ack")))]|];
          rewrite ?update_time_out_eq; destruct s; simpl;
          repeat split; eauto.
      * rewrite (on_socket_bad_key k s msg id Hl Hid Hh).
        destruct s. simpl. repeat split; auto.
Qed.

Lemma on_stdin_fields (data : pystr) (s : state) :
  let s' := exec (on_stdin data) s in
  fst (on_stdin data s) = inr tt /\ same_window s s'.
Proof.
  unfold same_window, exec. destruct data as [|c rest].
  - rewrite on_stdin_empty. destruct s. simpl. tauto.
  - rewrite on_stdin_chunk. cbv zeta. rewrite send_msg_eq.
    destruct s. simpl. destruct (_ <=? _); simpl; tauto.
Qed.

Lemma retransmit_msgs_fields (s : state) :
  0 < window s ->
  let s' := exec retransmit_msgs s in
  fst (retransmit_msgs s) = inr tt /\ same_window s s'.
Proof.
  intros Hw. unfold exec. rewrite retransmit_msgs_eq. cbv zeta.
  destruct (_ <=? _)%float.
  - pose proof (retransmit_loop_eq (dict_values (msgs_waiting_ack s)) 0
                  (set_ticks (S (ticks s)) s)) as L.
    destruct s; simpl in *. specialize (L ltac:(lia)).
    unfold exec in L. tauto.
  - destruct s; unfold same_window; simpl; tauto.
Qed.

Lemma congestion_control_inv (s : state) :
  window_inv s -> window_inv (exec congestion_control s).
Proof.
  unfold window_inv, exec. rewrite congestion_control_eq.
  destruct s. simpl.
  repeat match goal with
         | |- context [if ?c then _ else _] => destruct c eqn:?; simpl
         end;
    rewrite ?Z.ltb_lt, ?Z.ltb_ge in *; lia.
Qed.

Lemma step_window_inv (s s' : state) :
  window_inv s -> step json_loads s s' -> window_inv s'.
Proof.
  intros Inv St. destruct St as [s k|s data _ _|s|s].
  - destruct (on_socket_fields k s) as (_ & (Hw & Ht) & _).
    unfold window_inv. rewrite Hw, Ht. exact Inv.
  - destruct (on_stdin_fields data s) as (_ & Hw & Ht).
    unfold window_inv. rewrite Hw, Ht. exact Inv.
  - now apply congestion_control_inv.
  - destruct (retransmit_msgs_fields s) as (_ & Hw & Ht).
    { unfold window_inv in Inv. lia. }
    unfold window_inv. rewrite Hw, Ht. exact Inv.
Qed.

Lemma reachable_window_inv (s : state) :
  reachable json_loads s -> window_inv s.
Proof.
  induction 1 as [clock|s s' _ IH St].
  - unfold window_inv. simpl. lia.
  - eapply step_window_inv; eassumption.
Qed.

(** Every round of the loop is made of those operations. *)
Lemma run_round_reachable (ev : ready) (s : state) :
  reachable json_loads s -> reachable json_loads (exec (run_round json_loads ev) s).
Proof.
  intros R. unfold run_round, exec, bind, get. cbv zeta.
  set (s1 := snd (match on_sock ev with
                  | Some k => on_socket json_loads k
                  | None => ret tt
                  end s)).
  assert (E1 : match on_sock ev with
               | Some k => on_socket json_loads k
               | None => ret tt
               end s = (inr tt, s1) \/
               exists e, match on_sock ev with
                         | Some k => on_socket json_loads k
                         | None => ret tt
                         end s = (inl e, s)).
  { subst s1. destruct (on_sock ev) as [k|]; [|left; reflexivity].
    destruct (on_socket_fields k s) as ([H|(e & _ & _ & H)] & _).
    - left. destruct (on_socket json_loads k s); simpl in *. now subst.
    - right. exists e. exact H. }
  destruct E1 as [E1|(e & E1)]; [|rewrite E1; exact R].
  assert (R1 : reachable json_loads s1 /\
               (waiting s = false -> waiting s1 = false) /\
               finished s1 = finished s).
  { subst s1. destruct (on_sock ev) as [k|]; [|simpl; tauto].
    destruct (on_socket_fields k s) as (_ & _ & _ & Hf & _ & _ & _ & _ & Hw & _).
    unfold exec in *. split; [|split].
    - eapply reachable_step; [exact R|apply step_socket].
    - intros W. destruct Hw as [Hw|Hw]; congruence.
    - exact Hf. }
  rewrite E1. destruct R1 as (R1 & W1 & F1).
  set (c2 := match on_input ev with
             | Some data =>
                 when (negb (waiting s) && negb (finished s)) (on_stdin data)
             | None => ret tt
             end).
  assert (E2 : c2 s1 = (inr tt, snd (c2 s1)) /\
               reachable json_loads (snd (c2 s1))).
  { subst c2. destruct (on_input ev) as [data|]; [|simpl; tauto].
    unfold when.
    destruct (negb (waiting s) && negb (finished s)) eqn:G; [|simpl; tauto].
    apply andb_prop in G. destruct G as [G1 G2].
    apply negb_true_iff in G1, G2.
    destruct (on_stdin_fields data s1) as (H & _).
    split.
    - destruct (on_stdin data s1); simpl in *. now subst.
    - eapply reachable_step; [exact R1|].
      apply step_stdin; [now apply W1|congruence]. }
  destruct E2 as [E2 R2]. rewrite E2.
  set (s2 := snd (c2 s1)) in *.
  destruct (finished s2 && (len (msgs_waiting_ack s2) =? 0)); [exact R2|].
  assert (R3 : reachable json_loads (exec congestion_control s2))
    by (eapply reachable_step; [exact R2|apply step_congestion]).
  unfold exec in R3. rewrite congestion_control_eq in *. cbn [fst snd] in *.
  match goal with
  | H : reachable _ ?s3 |- _ =>
      assert (R4 : reachable json_loads (exec retransmit_msgs s3))
        by (eapply reachable_step; [exact H|apply step_retransmit]);
      destruct (retransmit_msgs_fields s3) as (E4 & _);
        [apply reachable_window_inv in H; unfold window_inv in H; lia|]
  end.
  unfold exec in R4.
  destruct (retransmit_msgs _) as [[e|[]] s4]; simpl in *;
    [discriminate|exact R4].
Qed.

Lemma run_reachable (rounds : list ready) :
  forall s, reachable json_loads s ->
            reachable json_loads (exec (run json_loads rounds) s).
Proof.
  induction rounds as [|ev rest IH]; intros s R; [exact R|].
  pose proof (run_round_reachable ev s R) as R1.
  unfold exec in *. cbn [run]. unfold bind.
  destruct (run_round json_loads ev s) as [[e|[|]] s1]; simpl in *; auto.
Qed.

End SenderFacts.

(** ** What the sender guarantees *)

Section SenderClaims.
Import Sender.
Variable json_loads : string -> Exc json.

(** C1, as amended: at every reachable state of the sender, [window] lies
    between 1 and [target_window], and [target_window] between 2 and 16.
    Nothing bounds the number of pending messages by [window]. *)
Theorem window_bound (s : state) :
  reachable json_loads s ->
  1 <= window s <= target_window s /\ 2 <= target_window s <= 16.
Proof. intros R. exact (reachable_window_inv json_loads s R). Qed.

(** C4: after the sender has processed an acknowledgment, [waiting] is
    false, whether or not its id is pending. *)
Theorem ack_clears_waiting (k : string) (s : state) (msg id : json) :
  json_loads k = inr msg ->
  getitem msg (py "id") = inr id ->
  hashable id = true ->
  getitem msg (py "type") = inr (JStr (py "ack")) ->
  waiting (exec (on_socket json_loads k) s) = false.
Proof.
  intros Hl Hid Hh Hty. unfold exec.
  rewrite (on_socket_decoded json_loads k s msg id Hl Hid Hh). cbv zeta.
  rewrite Hty.
  destruct (dict_find id (msgs_waiting_ack s));
    rewrite update_time_out_eq; destruct s; simpl;
    try destruct (str_eqb _ _); reflexivity.
Qed.


(** C7: [congestion_control] grows [window] by one below the bound unless it
    has reached [target_window]; above the bound, with
    [2 * window > target_window] and [len(msgs_waiting_ack) + 3 > window],
    it sets [window] to 1 and lowers [target_window] by one unless that is
    2; otherwise it changes neither. *)
Theorem congestion_control_cases (s : state) :
  reachable json_loads s ->
  let time_elapsed := (clock s (ticks s) - last_msg_sent_time s)%float in
  let bound := (1.75 * rtt s)%float in
  let s' := exec congestion_control s in
  ((time_elapsed <? bound)%float = true ->
   window s' = (if window s =? target_window s then window s
                else window s + 1) /\
   target_window s' = target_window s) /\
  ((bound <? time_elapsed)%float = true ->
   2 * window s > target_window s ->
   len (msgs_waiting_ack s) + 3 > window s ->
   window s' = 1 /\
   target_window s' = (if target_window s =? 2 then 2
                       else target_window s - 1)) /\
  ((time_elapsed <? bound)%float = false ->
   ~ ((bound <? time_elapsed)%float = true /\
      2 * window s > target_window s /\
      len (msgs_waiting_ack s) + 3 > window s) ->
   window s' = window s /\ target_window s' = target_window s).
Proof.
  intros R. apply reachable_window_inv in R. unfold window_inv in R.
  cbv zeta. unfold exec. rewrite congestion_control_eq. cbv zeta.
  split; [|split].
  - intros Hlt. rewrite Hlt.
    destruct (window s <? target_window s) eqn:E;
      [apply Z.ltb_lt in E|apply Z.ltb_ge in E];
      destruct (window s =? target_window s) eqn:E';
      [apply Z.eqb_eq in E'|apply Z.eqb_neq in E'
      |apply Z.eqb_eq in E'|apply Z.eqb_neq in E'];
      destruct s; simpl in *; lia.
  - intros Hgt H2 H3. rewrite (ltb_asym _ _ Hgt), Hgt.
    replace (target_window s <? 2 * window s) with true
      by (symmetry; apply Z.ltb_lt; lia).
    replace (window s <? len (msgs_waiting_ack s) + 3) with true
      by (symmetry; apply Z.ltb_lt; lia).
    cbn [andb].
    destruct (2 <? target_window s) eqn:E;
      [apply Z.ltb_lt in E|apply Z.ltb_ge in E];
      destruct (target_window s =? 2) eqn:E';
      [apply Z.eqb_eq in E'|apply Z.eqb_neq in E'
      |apply Z.eqb_eq in E'|apply Z.eqb_neq in E'];
      destruct s; simpl in *; lia.
  - intros Hlt Hno. rewrite Hlt.
    destruct ((1.75 * rtt s <? _)%float && _ && _) eqn:E.
    + exfalso. apply Hno.
      apply andb_prop in E. destruct E as [E E3].
      apply andb_prop in E. destruct E as [E1 E2].
      apply Z.ltb_lt in E2, E3. repeat split; [exact E1|lia|lia].
    + destruct s; simpl; tauto.
Qed.

(** C6: when the time since the last send has reached 1.75 [rtt],
    [retransmit_msgs] sends again the first [min(window, len)] pending
    messages in insertion order, reading the clock for each and leaving the
    last reading in [last_msg_sent_time]; below that bound it sends nothing
    and [last_msg_sent_time] stays. *)
Theorem retransmit_msgs_sends (s : state) :
  reachable json_loads s ->
  let time_elapsed := (clock s (ticks s) - last_msg_sent_time s)%float in
  let bound := (1.75 * rtt s)%float in
  let s' := exec retransmit_msgs s in
  let n := Z.to_nat (Z.min (window s) (len (msgs_waiting_ack s))) in
  ((bound <=? time_elapsed)%float = true ->
   wire s' = wire s ++ firstn n (dict_values (msgs_waiting_ack s)) /\
   ticks s' = (ticks s + 1 + n)%nat /\
   last_msg_sent_time s' =
     match n with
     | O => last_msg_sent_time s
     | S m => clock s (ticks s + 1 + m)%nat
     end /\
   msgs_waiting_ack s' = msgs_waiting_ack s) /\
  ((time_elapsed <? bound)%float = true ->
   wire s' = wire s /\ ticks s' = S (ticks s) /\
   last_msg_sent_time s' = last_msg_sent_time s /\
   msgs_waiting_ack s' = msgs_waiting_ack s).
Proof.
  intros R. apply reachable_window_inv in R. unfold window_inv in R.
  cbv zeta. unfold exec. rewrite retransmit_msgs_eq. cbv zeta. split.
  - intros Hge. rewrite Hge.
    pose proof (retransmit_loop_eq (dict_values (msgs_waiting_ack s)) 0
                  (set_ticks (S (ticks s)) s)) as L.
    assert (Hn : Nat.min (Z.to_nat (window s - 0))
                         (length (dict_values (msgs_waiting_ack s)))
                 = Z.to_nat (Z.min (window s) (len (msgs_waiting_ack s)))).
    { unfold dict_values, len. rewrite length_map. lia. }
    destruct s; simpl in *. specialize (L ltac:(lia)).
    unfold exec in L. rewrite Hn in L.
    destruct L as (_ & L1 & L2 & L3 & _ & L4 & _).
    rewrite L1, L2, L3, L4. repeat split; try lia.
    destruct (Z.to_nat _); [reflexivity|f_equal; lia].
  - intros Hlt. rewrite (ltb_not_leb _ _ Hlt). destruct s; simpl. tauto.
Qed.

End SenderClaims.

(** ** The sender on concrete runs *)

Lemma filled_reachable : Sender.reachable sample_loads filled.
Proof. apply run_reachable, Sender.reachable_init. Qed.

Lemma collapsed_reachable : Sender.reachable sample_loads collapsed.
Proof. apply run_reachable, Sender.reachable_init. Qed.

Lemma window_bound_witness :
  1 <= Sender.window collapsed <= Sender.target_window collapsed /\
  2 <= Sender.target_window collapsed <= 16.
Proof.
  apply (window_bound sample_loads collapsed).
  apply run_reachable, Sender.reachable_init.
Defined.

(** C1, as stated, fails: after the window has collapsed, fourteen messages
    are pending under a window of one. *)
Lemma window_bound_counterexample :
  Sender.reachable sample_loads collapsed /\
  len (Sender.msgs_waiting_ack collapsed) = 14 /\
  Sender.window collapsed = 1 /\
  Sender.target_window collapsed = 15 /\
  ~ (len (Sender.msgs_waiting_ack collapsed) <= Sender.window collapsed /\
     Sender.window collapsed <= Sender.target_window collapsed).
Proof.
  split; [exact collapsed_reachable|].
  assert (L : len (Sender.msgs_waiting_ack collapsed) = 14)
    by (vm_compute; reflexivity).
  assert (W : Sender.window collapsed = 1) by (vm_compute; reflexivity).
  assert (T : Sender.target_window collapsed = 15)
    by (vm_compute; reflexivity).
  rewrite L, W, T. repeat split; lia.
Qed.

Lemma ack_clears_waiting_witness :
  Sender.waiting collapsed = true /\
  Sender.waiting
    (exec (Sender.on_socket sample_loads (ack_text "99")) collapsed) = false.
Proof.
  split; [vm_compute; reflexivity|].
  assert (Hl : sample_loads (ack_text "99") = inr (ack_msg (JInt 99)))
    by (vm_compute; reflexivity).
  exact (ack_clears_waiting sample_loads (ack_text "99") collapsed
           (ack_msg (JInt 99)) (JInt 99) Hl eq_refl eq_refl eq_refl).
Defined.



Lemma congestion_control_cases_witness :
  Sender.window (exec Sender.congestion_control filled) = 1 /\
  Sender.target_window (exec Sender.congestion_control filled) = 15.
Proof.
  destruct (congestion_control_cases sample_loads filled filled_reachable)
    as (_ & H & _).
  assert (T : (if Sender.target_window filled =? 2 then 2
               else Sender.target_window filled - 1) = 15)
    by (vm_compute; reflexivity).
  rewrite <- T. apply H; vm_compute; reflexivity.
Defined.

Lemma retransmit_msgs_sends_witness :
  Sender.wire (exec Sender.retransmit_msgs filled) =
  Sender.wire filled
  ++ firstn 14 (dict_values (Sender.msgs_waiting_ack filled)).
Proof.
  destruct (retransmit_msgs_sends sample_loads filled filled_reachable)
    as (H & _).
  destruct H as (H & _); [vm_compute; reflexivity|].
  assert (N : Z.to_nat (Z.min (Sender.window filled)
                              (len (Sender.msgs_waiting_ack filled)))
              = 14%nat) by (vm_compute; reflexivity).
  rewrite N in H. exact H.
Defined.

(** ** The receiver's dictionary *)

Lemma py_eq_int (z : Z) (k : json) :
  py_eq (JInt z) k = true <-> key_int k = Some z.
Proof.
  unfold py_eq. cbn [key_int].
  destruct (key_int k) as [y|] eqn:E.
  - destruct k; try discriminate; rewrite Z.eqb_eq;
      split; intros H; congruence.
  - destruct k; try discriminate; split; intros H; discriminate.
Qed.

Lemma dict_find_in (k : json) (d : pydict) (v : json) :
  dict_find k d = Some v ->
  exists k', In (k', v) d /\ py_eq k k' = true.
Proof.
  induction d as [|[k' v'] d IH]; cbn [dict_find In]; [discriminate|].
  destruct (py_eq k k') eqn:E.
  - intros H. injection H as <-. eauto.
  - intros H. destruct (IH H) as (k'' & Hin & Heq). eauto.
Qed.

Lemma dict_set_new (k v : json) (d : pydict) :
  dict_find k d = None -> dict_set k v d = d ++ [(k, v)].
Proof.
  induction d as [|[k' v'] d IH]; cbn [dict_find dict_set app];
    [reflexivity|].
  destruct (py_eq k k'); [discriminate|].
  intros H. now rewrite IH.
Qed.

Lemma above_le (p : Z) (d : pydict) :
  (above (p + 1) d <= above p d)%nat.
Proof.
  unfold above. induction d as [|[k v] d IH]; simpl; [lia|].
  destruct (key_int k) as [z|]; [|exact IH].
  destruct (p + 1 <? z) eqn:E1, (p <? z) eqn:E2; simpl; lia.
Qed.

Lemma above_lt (p : Z) (d : pydict) (v : json) :
  dict_find (JInt (p + 1)) d = Some v ->
  (above (p + 1) d < above p d)%nat.
Proof.
  unfold above. induction d as [|[k v'] d IH];
    cbn [dict_find filter fst]; [discriminate|].
  destruct (py_eq (JInt (p + 1)) k) eqn:E.
  - intros _. apply py_eq_int in E. rewrite E.
    rewrite Z.ltb_irrefl.
    replace (p <? p + 1) with true by (symmetry; apply Z.ltb_lt; lia).
    cbn [length]. pose proof (above_le p d). unfold above in *. lia.
  - intros H. specialize (IH H).
    destruct (key_int k) as [z|]; [|exact IH].
    destruct (p + 1 <? z) eqn:E1, (p <? z) eqn:E2; cbn [length]; lia.
Qed.

Lemma above_length (p : Z) (d : pydict) : (above p d <= length d)%nat.
Proof. unfold above. apply filter_length_le. Qed.

Tactic Notation "receiver_fields" :=
  cbn [fst snd Receiver.printed_id Receiver.received_msgs
       Receiver.remote_host Receiver.remote_port Receiver.sent
       Receiver.stdout Receiver.stderr Receiver.set_printed_id
       Receiver.set_received_msgs Receiver.set_remote Receiver.set_sent
       Receiver.set_stdout Receiver.set_stderr].

Tactic Notation "receiver_fields" "in" "*" :=
  cbn [fst snd Receiver.printed_id Receiver.received_msgs
       Receiver.remote_host Receiver.remote_port Receiver.sent
       Receiver.stdout Receiver.stderr Receiver.set_printed_id
       Receiver.set_received_msgs Receiver.set_remote Receiver.set_sent
       Receiver.set_stdout Receiver.set_stderr] in *.

Lemma emap_ord_raises (l : list json) (e : exn) :
  emap ord l = inl e -> e = TypeError.
Proof.
  induction l as [|c l IH]; cbn [emap]; [discriminate|].
  unfold ebind at 1. destruct (ord c) as [e'|x] eqn:E.
  - intros H. injection H as <-.
    destruct c as [| | | |s| |]; try (injection E as <-; reflexivity).
    destruct s as [|a [|b s]]; try discriminate;
      injection E as <-; reflexivity.
  - unfold ebind. destruct (emap ord l) as [e'|xs]; [|discriminate].
    intros H. injection H as <-. now apply IH.
Qed.

(** [checksum256] raises nothing but [TypeError]. *)
Lemma checksum256_raises (st : json) (e : exn) :
  Receiver.checksum256 st = inl e -> e = TypeError.
Proof.
  unfold Receiver.checksum256, ebind.
  destruct (py_iter st) as [e'|items] eqn:E1.
  - intros H. injection H as <-.
    destruct st; try discriminate; injection E1 as <-; reflexivity.
  - destruct (emap ord items) as [e'|codes] eqn:E2.
    + intros H. injection H as <-. exact (emap_ord_raises _ _ E2).
    + destruct codes as [|c codes]; cbn [reduce]; [|discriminate].
      intros H. injection H as <-. reflexivity.
Qed.

Section ReceiverFacts.
Import Receiver.
Variable json_loads : string -> Exc json.
Variable printable : json -> bool.

(** Every datagram is dropped, or carries a valid message, or makes
    [json.loads] raise what the handler does not catch. *)
Lemma rejected_or_accepted (data : string) :
  rejected json_loads data \/
  (exists msg id, accepted json_loads data msg id) \/
  (exists e, json_loads data = inl e /\ caught e = false).
Proof.
  destruct (json_loads data) as [e|msg] eqn:E1.
  { destruct (caught e) eqn:C.
    - left. eapply rejected_malformed; eassumption.
    - right. right. exists e. auto. }
  destruct (getitem msg (py "cs")) as [e|cs] eqn:E2;
    [left; eapply rejected_cs; eassumption|].
  destruct (getitem msg (py "data")) as [e|payload] eqn:E3;
    [left; eapply rejected_data; eassumption|].
  destruct (checksum256 payload) as [e|sum] eqn:E4;
    [left; eapply rejected_payload; eassumption|].
  destruct (py_eq cs (JInt sum)) eqn:E5;
    [|left; eapply rejected_checksum; eassumption].
  destruct (getitem msg (py "id")) as [e|id] eqn:E6;
    [left; eapply rejected_id; eassumption|].
  destruct (hashable id) eqn:E7;
    [|left; eapply rejected_key; eassumption].
  right. left. exists msg, id. eapply accepted_intro; eassumption.
Qed.

Lemma learn_fields (addr : pystr * Z) (r : state) :
  printed_id (learn addr r) = printed_id r /\
  received_msgs (learn addr r) = received_msgs r /\
  sent (learn addr r) = sent r /\ stdout (learn addr r) = stdout r /\
  stderr (learn addr r) = stderr r.
Proof. unfold learn. destruct r as [? ? [h|] ? ? ? ?]; simpl; tauto. Qed.

Lemma run_conn_start (data : string) (addr : pystr * Z) (r : state)
      (body : json -> M state unit) :
  try_except
    (r <- get ;;
     when (match remote_host r with None => true | Some _ => false end)
          (modify (set_remote (fst addr) (snd addr))) ;;
     msg <- lift (json_loads data) ;;
     body msg)
    (fun _ => log (LogText "corrupt msg")) r =
  match json_loads data with
  | inl e =>
      if caught e then (inr tt, discard (learn addr r))
      else (inl e, learn addr r)
  | inr msg =>
      match body msg (learn addr r) with
      | (inl e, r') => if caught e then (inr tt, discard r') else (inl e, r')
      | (inr a, r') => (inr a, r')
      end
  end.
Proof.
  unfold try_except, bind, get, when, lift, modify, ret, learn, log, discard.
  destruct (remote_host r); destruct (json_loads data); reflexivity.
Qed.

Lemma run_conn_rejected (data : string) (addr : pystr * Z) (r : state) :
  rejected json_loads data ->
  run_conn json_loads printable data addr r
  = (inr tt, discard (learn addr r)).
Proof.
  intros H. unfold run_conn. rewrite run_conn_start.
  destruct H as [e H1 C|msg e H1 H2|msg cs e H1 H2 H3
                |msg cs payload e H1 H2 H3 H4
                |msg cs payload sum H1 H2 H3 H4 H5
                |msg cs payload sum e H1 H2 H3 H4 H5 H6
                |msg cs payload sum id H1 H2 H3 H4 H5 H6 H7];
    rewrite H1.
  - now rewrite C.
  - unfold bind, lift. rewrite H2, (getitem_caught _ _ _ H2). reflexivity.
  - unfold bind, lift. rewrite H2, H3, (getitem_caught _ _ _ H3).
    reflexivity.
  - unfold bind, lift. rewrite H2, H3, H4.
    rewrite (checksum256_raises _ _ H4). reflexivity.
  - unfold bind, lift. rewrite H2, H3, H4, H5. reflexivity.
  - unfold bind, lift. rewrite H2, H3, H4, H5. cbn [negb].
    rewrite H6, (getitem_caught _ _ _ H6). reflexivity.
  - unfold bind, lift. rewrite H2, H3, H4, H5. cbn [negb]. rewrite H6.
    unfold get, dict_contains. rewrite H7. reflexivity.
Qed.

(** An exception of [json.loads] that is not caught leaves the handler,
    after the peer has been learned. *)
Lemma run_conn_fatal (data : string) (addr : pystr * Z) (r : state)
      (e : exn) :
  json_loads data = inl e -> caught e = false ->
  run_conn json_loads printable data addr r = (inl e, learn addr r).
Proof.
  intros H C. unfold run_conn. rewrite run_conn_start, H, C. reflexivity.
Qed.

Lemma print_loop_S (n : nat) (r : state) :
  print_loop printable (S n) r =
  match dict_find (JInt (printed_id r + 1)) (received_msgs r) with
  | None => (inr tt, r)
  | Some msg =>
      let r1 := set_printed_id (printed_id r + 1) r in
      match getitem msg (py "data") with
      | inl e => (inl e, r1)
      | inr data =>
          if printable data
          then print_loop printable n (set_stdout (stdout r ++ [data]) r1)
          else (inl UnicodeEncodeError, r1)
      end
  end.
Proof.
  cbn [print_loop]. unfold bind, get, lift, modify, print, dict_contains,
    dict_getitem. cbn [hashable]. destruct r. receiver_fields.
  destruct (dict_find (JInt (printed_id0 + 1)) received_msgs0)
    as [msg|] eqn:E; receiver_fields; [|reflexivity].
  rewrite E. receiver_fields.
  destruct (getitem msg (py "data")) as [e|data]; [reflexivity|].
  destruct (printable data); reflexivity.
Qed.

(** What the loop raises is caught by the handler around it. *)
Lemma print_loop_caught (fuel : nat) :
  forall (r : state) (e : exn),
    fst (print_loop printable fuel r) = inl e -> caught e = true.
Proof.
  induction fuel as [|n IH]; intros r e; [discriminate|].
  rewrite print_loop_S.
  destruct (dict_find _ _) as [msg|]; [|discriminate].
  cbv zeta. destruct (getitem msg (py "data")) as [e'|data] eqn:G.
  - cbn [fst]. intros H. injection H as <-.
    exact (getitem_caught _ _ _ G).
  - destruct (printable data); [apply IH|].
    cbn [fst]. intros H. injection H as <-. reflexivity.
Qed.

Lemma run_conn_accepted (data : string) (addr : pystr * Z) (r : state)
      (msg id : json) :
  accepted json_loads data msg id ->
  run_conn json_loads printable data addr r =
  let r0 := learn addr r in
  match dict_find id (received_msgs r0) with
  | Some _ => (inr tt, acknowledge msg id r0)
  | None =>
      match print_msgs printable
              (set_received_msgs (dict_set id msg (received_msgs r0)) r0) with
      | (inr _, r1) => (inr tt, acknowledge msg id r1)
      | (inl _, r1) => (inr tt, discard r1)
      end
  end.
Proof.
  intros [cs payload sum H1 H2 H3 H4 H5 H6 H7].
  unfold run_conn. rewrite run_conn_start, H1.
  unfold bind at 1 2 3. unfold lift at 1 2 3. rewrite H2, H3, H4, H5.
  cbn [negb]. unfold bind, lift, get, dict_contains, when, modify, log, send,
    ret, acknowledge. rewrite H6, H7. cbv zeta.
  destruct (dict_find id (received_msgs (learn addr r))); cbn [negb].
  - reflexivity.
  - pose proof (print_loop_caught
                  (S (length
                        (received_msgs
                           (set_received_msgs
                              (dict_set id msg (received_msgs (learn addr r)))
                              (learn addr r)))))
                  (set_received_msgs
                     (dict_set id msg (received_msgs (learn addr r)))
                     (learn addr r))) as C.
    unfold print_msgs, bind, get in *.
    destruct (print_loop _ _ _) as [[e|[]] r1]; cbn [fst] in C.
    + rewrite (C e eq_refl). reflexivity.
    + reflexivity.
Qed.

(** More rounds than stored keys above the cursor change nothing: the loop
    ends because its condition fails or because [print] raises. *)
Lemma print_loop_enough (fuel : nat) :
  forall r : state,
    (above (printed_id r) (received_msgs r) < fuel)%nat ->
    print_loop printable (S fuel) r = print_loop printable fuel r.
Proof.
  induction fuel as [|n IH]; intros r Hlt; [lia|].
  rewrite (print_loop_S (S n)), (print_loop_S n).
  destruct (dict_find _ _) as [msg|] eqn:E; [|reflexivity].
  cbv zeta. destruct (getitem msg (py "data")) as [e|data]; [reflexivity|].
  destruct (printable data); [|reflexivity].
  apply IH. destruct r. receiver_fields in *.
  pose proof (above_lt _ _ _ E). lia.
Qed.

(** In particular no number of rounds beyond that of [print_msgs] changes
    its outcome. *)
Lemma print_msgs_enough (extra : nat) (r : state) :
  print_loop printable (S (length (received_msgs r)) + extra) r
  = print_msgs printable r.
Proof.
  induction extra as [|n IH].
  - rewrite Nat.add_0_r. reflexivity.
  - rewrite Nat.add_succ_r, print_loop_enough; [exact IH|].
    pose proof (above_length (printed_id r) (received_msgs r)). lia.
Qed.

Lemma print_loop_stops (fuel : nat) :
  forall r : state,
    (above (printed_id r) (received_msgs r) < fuel)%nat ->
    fst (print_loop printable fuel r) = inr tt ->
    let r' := exec (print_loop printable fuel) r in
    dict_find (JInt (printed_id r' + 1)) (received_msgs r') = None.
Proof.
  unfold exec.
  induction fuel as [|n IH]; intros r Hlt; [lia|].
  rewrite print_loop_S.
  destruct (dict_find _ _) as [msg|] eqn:E; [|intros _; exact E].
  cbv zeta. destruct (getitem msg (py "data")) as [e|data];
    [discriminate|].
  destruct (printable data); [|discriminate].
  apply IH. destruct r. receiver_fields in *.
  pose proof (above_lt _ _ _ E). lia.
Qed.

(** The loop only moves the cursor forward and prints, whatever is stored
    and whether or not it raises. *)
Lemma print_loop_mono (fuel : nat) :
  forall r : state,
    let r' := snd (print_loop printable fuel r) in
    received_msgs r' = received_msgs r /\
    sent r' = sent r /\ stderr r' = stderr r /\
    remote_host r' = remote_host r /\ remote_port r' = remote_port r /\
    printed_id r <= printed_id r' /\
    exists more, stdout r' = stdout r ++ more.
Proof.
  induction fuel as [|n IH]; intros r; cbv zeta.
  - simpl. repeat split; try lia. exists []. now rewrite app_nil_r.
  - rewrite print_loop_S.
    destruct (dict_find _ _) as [msg|].
    + cbv zeta. destruct (getitem msg (py "data")) as [e|data].
      * destruct r. simpl. repeat split; try lia.
        exists []. now rewrite app_nil_r.
      * destruct (printable data).
        -- specialize (IH (set_stdout (stdout r ++ [data])
                             (set_printed_id (printed_id r + 1) r))).
           cbv zeta in IH. destruct r. receiver_fields in *.
           destruct IH as (I1 & I2 & I3 & I4 & I5 & I6 & more & I7).
           repeat split; try assumption; try lia.
           exists (data :: more). rewrite I7, <- app_assoc. reflexivity.
        -- destruct r. simpl. repeat split; try lia.
           exists []. now rewrite app_nil_r.
    + simpl. repeat split; try lia. exists []. now rewrite app_nil_r.
Qed.

(** On stored messages that can all be printed the loop raises nothing. *)
Lemma print_loop_ok (fuel : nat) :
  forall r : state,
    stored_printable printable (received_msgs r) ->
    fst (print_loop printable fuel r) = inr tt.
Proof.
  induction fuel as [|n IH]; intros r Hok; [reflexivity|].
  rewrite print_loop_S.
  destruct (dict_find _ _) as [msg|] eqn:E; [|reflexivity].
  destruct (dict_find_in _ _ _ E) as (k' & Hin & _).
  pose proof Hok as Hok'. unfold stored_printable in Hok'.
  rewrite Forall_forall in Hok'.
  destruct (Hok' _ Hin) as (payload & Hp & Hq). cbn [snd] in Hp.
  cbv zeta. rewrite Hp, Hq. apply IH. destruct r. exact Hok.
Qed.

Lemma stored_ok_set (id msg payload : json) (d : pydict) :
  stored_ok d ->
  getitem msg (py "data") = inr payload ->
  stored_ok (dict_set id msg d).
Proof.
  unfold stored_ok. intros Hd Hm.
  induction d as [|[k v] d IH]; cbn [dict_set].
  - constructor; [|constructor]. now exists payload.
  - inversion Hd as [|x l Hx Hl]; subst.
    destruct (py_eq id k); constructor; auto.
    now exists payload.
Qed.

Lemma stored_printable_set (id msg payload : json) (d : pydict) :
  stored_printable printable d ->
  getitem msg (py "data") = inr payload ->
  printable payload = true ->
  stored_printable printable (dict_set id msg d).
Proof.
  unfold stored_printable. intros Hd Hm Hp.
  induction d as [|[k v] d IH]; cbn [dict_set].
  - constructor; [|constructor]. now exists payload.
  - inversion Hd as [|x l Hx Hl]; subst.
    destruct (py_eq id k); constructor; auto.
    now exists payload.
Qed.


(** What a datagram does to the receiver, whichever it is. *)
Lemma run_conn_effect (data : string) (addr : pystr * Z) (r : state) :
  let r' := exec (run_conn json_loads printable data addr) r in
  remote_host r' = remote_host (learn addr r) /\
  remote_port r' = remote_port (learn addr r) /\
  printed_id r <= printed_id r' /\
  (exists out, stdout r' = stdout r ++ out) /\
  (exists acks, sent r' = sent r ++ acks) /\
  (exists new, received_msgs r' = received_msgs r ++ new).
Proof.
  cbv zeta. unfold exec.
  destruct (learn_fields addr r) as (L1 & L2 & L3 & L4 & L5).
  destruct (rejected_or_accepted data) as [H|[(msg & id & H)|(e & H & C)]].
  - rewrite (run_conn_rejected _ _ _ H).
    unfold discard. receiver_fields. rewrite L1, L2, L3, L4.
    repeat split; try lia; exists []; now rewrite app_nil_r.
  - rewrite (run_conn_accepted _ _ _ _ _ H). cbv zeta.
    rewrite L2.
    destruct (dict_find id (received_msgs r)) eqn:E.
    + unfold acknowledge. receiver_fields. rewrite L1, L2, L3, L4.
      repeat split; try lia.
      * exists []. now rewrite app_nil_r.
      * eexists. reflexivity.
      * exists []. now rewrite app_nil_r.
    + set (r0 := set_received_msgs _ _).
      pose proof (print_loop_mono (S (length (received_msgs r0))) r0) as P.
      cbv zeta in P. unfold print_msgs, bind, get.
      destruct (print_loop _ _ r0) as [[e|[]] r1]; cbn [fst snd] in *;
        destruct P as (P1 & P2 & P3 & P4 & P5 & P6 & out & P7);
        unfold acknowledge, discard; receiver_fields;
        rewrite ?P1, ?P2, ?P4, ?P5, ?P7; subst r0; receiver_fields in *;
        rewrite ?L1, ?L2, ?L3, ?L4 in *;
        rewrite (dict_set_new _ _ _ E);
        repeat split; try lia;
        try (exists out; reflexivity);
        try (eexists; reflexivity).
      exists []. now rewrite app_nil_r.
  - rewrite (run_conn_fatal _ _ _ _ H C). cbn [snd].
    rewrite L1, L2, L3, L4.
    repeat split; try lia; exists []; now rewrite app_nil_r.
Qed.

Lemma reachable_stored_ok (r : state) :
  reachable json_loads printable r -> stored_ok (received_msgs r).
Proof.
  induction 1 as [|r data addr _ IH]; [constructor|].
  unfold exec.
  destruct (learn_fields addr r) as (_ & L & _).
  destruct (rejected_or_accepted data) as [H|[(msg & id & H)|(e & H & C)]].
  - rewrite (run_conn_rejected _ _ _ H). unfold discard. receiver_fields.
    now rewrite L.
  - rewrite (run_conn_accepted _ _ _ _ _ H). cbv zeta.
    destruct (dict_find _ _).
    + unfold acknowledge. receiver_fields. now rewrite L.
    + destruct H as [cs payload sum _ _ Hp _ _ _ _].
      pose proof (stored_ok_set id msg payload _ IH Hp) as Hok.
      rewrite <- L in Hok.
      set (r0 := set_received_msgs _ _) in *.
      assert (Hok0 : stored_ok (received_msgs r0)) by exact Hok.
      destruct (print_loop_mono (S (length (received_msgs r0))) r0)
        as (P2 & _).
      unfold print_msgs, bind, get.
      destruct (print_loop _ _ r0) as [[e|[]] r1]; cbn [fst snd] in *;
        unfold acknowledge, discard; receiver_fields; now rewrite P2.
  - rewrite (run_conn_fatal _ _ _ _ H C). cbn [snd]. now rewrite L.
Qed.


(** [run] goes on to the next datagram unless the handler raises. *)
Lemma run_cons (data : string) (addr : pystr * Z)
      (rest : list (string * (pystr * Z))) (r : state) :
  run json_loads printable ((data, addr) :: rest) r =
  match run_conn json_loads printable data addr r with
  | (inr _, r1) => run json_loads printable rest r1
  | (inl e, r1) => (inl e, r1)
  end.
Proof.
  cbn [run]. unfold bind.
  destruct (run_conn json_loads printable data addr r) as [[e|[]] r1];
    reflexivity.
Qed.

Lemma run_step (data : string) (addr : pystr * Z)
      (rest : list (string * (pystr * Z))) (r : state) :
  exec (run json_loads printable ((data, addr) :: rest)) r
  = exec (run json_loads printable rest)
         (exec (run_conn json_loads printable data addr) r) \/
  exec (run json_loads printable ((data, addr) :: rest)) r
  = exec (run_conn json_loads printable data addr) r.
Proof.
  unfold exec. rewrite run_cons.
  destruct (run_conn json_loads printable data addr r) as [[e|[]] r1];
    cbn [snd]; auto.
Qed.


Lemma run_reachable_receiver (arrivals : list (string * (pystr * Z))) :
  forall r, reachable json_loads printable r ->
            reachable json_loads printable
              (exec (run json_loads printable arrivals) r).
Proof.
  induction arrivals as [|[data addr] rest IH]; intros r R; [exact R|].
  destruct (run_step data addr rest r) as [E|E]; rewrite E.
  - apply IH. now apply reachable_conn.
  - now apply reachable_conn.
Qed.

End ReceiverFacts.

Lemma Forall_firstn {A} (P : A -> Prop) (n : nat) (l : list A) :
  Forall P l -> Forall P (firstn n l).
Proof.
  revert l. induction n as [|n IH]; intros l H; [constructor|].
  destruct H; cbn [firstn]; constructor; auto.
Qed.


Section SenderFrames.
Import Sender.
Variable json_loads : string -> Exc json.

Lemma framed_pop (id : json) (d : pydict) :
  Forall framed (dict_values d) -> Forall framed (dict_values (dict_pop id d)).
Proof.
  unfold dict_values. induction d as [|[k v] d IH]; cbn [dict_pop map];
    [trivial|].
  intros H. inversion H as [|x l Hx Hl]; subst.
  destruct (py_eq id k); [exact Hl|]. cbn [map snd]. constructor; auto.
Qed.

Lemma framed_set (id msg : json) (d : pydict) :
  framed msg ->
  Forall framed (dict_values d) -> Forall framed (dict_values (dict_set id msg d)).
Proof.
  unfold dict_values. intros Hm.
  induction d as [|[k v] d IH]; cbn [dict_set map snd].
  - intros _. constructor; [exact Hm|constructor].
  - intros H. inversion H as [|x l Hx Hl]; subst.
    destruct (py_eq id k); cbn [map snd]; constructor; auto.
Qed.

(** Every message the sender keeps or has sent carries a payload. *)
Lemma reachable_framed (s : state) :
  reachable json_loads s ->
  Forall framed (wire s) /\ Forall framed (dict_values (msgs_waiting_ack s)).
Proof.
  induction 1 as [clock|s s' R [IHw IHm] St].
  - split; constructor.
  - destruct St as [s k|s data _ _|s|s].
    + destruct (on_socket_fields json_loads k s)
        as (_ & _ & _ & _ & Hw & _ & _ & _ & _ & [Hm|[id Hm]]);
        rewrite Hw, Hm; split; auto using framed_pop.
    + unfold exec. destruct data as [|c rest].
      * rewrite on_stdin_empty. destruct s. simpl in *. auto.
      * rewrite on_stdin_chunk. cbv zeta.
        assert (F : framed (data_msg (id_generator s + 1) (c :: rest)
                              (code_sum (c :: rest) mod 256)))
          by (eexists _, _, _; split; [reflexivity|discriminate]).
        pose proof (send_msg_fields
                      (data_msg (id_generator s + 1) (c :: rest)
                         (code_sum (c :: rest) mod 256))
                      (set_msgs_waiting_ack
                         (dict_set (JInt (id_generator s + 1))
                            (data_msg (id_generator s + 1) (c :: rest)
                               (code_sum (c :: rest) mod 256))
                            (msgs_waiting_ack s))
                         (set_id_generator (id_generator s + 1) s))) as S.
        cbv zeta in S. unfold exec in S.
        destruct S as (_ & Sm & _ & _ & _ & _ & _ & Sw & _).
        rewrite Sm, Sw. destruct s. simpl in *. split.
        -- apply Forall_app. split; [exact IHw|constructor; auto].
        -- now apply framed_set.
    + unfold exec. rewrite congestion_control_eq. destruct s. simpl in *.
      repeat match goal with
             | |- context [if ?c then _ else _] => destruct c; simpl
             end; auto.
    + pose proof (reachable_window_inv json_loads s R) as Inv.
      unfold window_inv in Inv.
      unfold exec. rewrite retransmit_msgs_eq. cbv zeta.
      destruct (_ <=? _)%float; [|destruct s; simpl in *; auto].
      pose proof (retransmit_loop_eq (dict_values (msgs_waiting_ack s)) 0
                    (set_ticks (S (ticks s)) s)) as L.
      destruct s; simpl in *. specialize (L ltac:(lia)).
      unfold exec in L. destruct L as (_ & L1 & _ & _ & _ & L2 & _).
      rewrite L1, L2. split; [|exact IHm].
      apply Forall_app. split; [exact IHw|].
      now apply Forall_firstn.
Qed.

End SenderFrames.

Lemma utf8_ascii (b : pystr) :
  Forall (fun c => 0 <= c < 128) b -> utf8_bytes b = b.
Proof.
  unfold utf8_bytes. induction 1 as [|c b Hc _ IH]; [reflexivity|].
  cbn [flat_map]. rewrite IH. unfold utf8.
  replace (c <? 128) with true by (symmetry; apply Z.ltb_lt; lia).
  reflexivity.
Qed.

Section ReceiverClaims.
Import Receiver.
Variable json_loads : string -> Exc json.
Variable printable : json -> bool.

(** C9, as amended: on every chunk that is not empty both [checksum256]
    return the sum of the character codes modulo 256, a number from 0 to
    255; this is the sum of the bytes of the chunk when all its characters
    are ASCII, whose bytes are their codes. *)
Theorem checksum256_sum (b : pystr) :
  b <> [] ->
  Sender.checksum256 (JStr b) = inr (code_sum b mod 256) /\
  0 <= code_sum b mod 256 <= 255 /\
  Receiver.checksum256 (JStr b) = Sender.checksum256 (JStr b) /\
  (Forall (fun c => 0 <= c < 128) b ->
   Sender.checksum256 (JStr b) = inr (code_sum (utf8_bytes b) mod 256)).
Proof.
  intros Hb. rewrite sender_checksum256_eq, receiver_checksum256_str.
  destruct b as [|c b]; [contradiction|].
  pose proof (Z.mod_pos_bound (code_sum (c :: b)) 256 ltac:(lia)).
  split; [reflexivity|]. split; [lia|]. split; [reflexivity|].
  intros Ha. now rewrite (utf8_ascii _ Ha).
Qed.



(** C10, as amended: [checksum256] raises on the empty chunk; a datagram
    whose payload is empty is therefore dropped whatever its [cs]: nothing
    is sent, and nothing changes but the log and, if this is the first
    datagram, the address of the peer.  The sender never frames an empty
    payload: a read of length zero only sets [finished]. *)
Theorem empty_payload_never_valid (data : string) (addr : pystr * Z)
        (r : state) (msg : json) (s : Sender.state) :
  json_loads data = inr msg ->
  getitem msg (py "data") = inr (JStr []) ->
  Sender.reachable json_loads s ->
  checksum256 (JStr []) = inl TypeError /\
  (let r' := exec (run_conn json_loads printable data addr) r in
   r' = discard (learn addr r) /\
   sent r' = sent r /\ received_msgs r' = received_msgs r /\
   printed_id r' = printed_id r /\ stdout r' = stdout r /\
   stderr r' = stderr r ++ [LogText "corrupt msg"] /\
   (remote_host r <> None ->
    remote_host r' = remote_host r /\ remote_port r' = remote_port r)) /\
  (Forall framed (Sender.wire s) /\
   Forall framed (dict_values (Sender.msgs_waiting_ack s))) /\
  (let s' := exec (Sender.on_stdin []) s in
   Sender.finished s' = true /\ Sender.wire s' = Sender.wire s /\
   Sender.msgs_waiting_ack s' = Sender.msgs_waiting_ack s /\
   Sender.id_generator s' = Sender.id_generator s).
Proof.
  intros Hl Hd R. split; [reflexivity|]. split; [|split].
  - assert (H : rejected json_loads data).
    { destruct (getitem msg (py "cs")) as [e|cs] eqn:E.
      - eapply rejected_cs; eassumption.
      - eapply rejected_payload; try eassumption. reflexivity. }
    cbv zeta. unfold exec.
    rewrite (run_conn_rejected json_loads printable _ _ _ H).
    destruct (learn_fields addr r) as (L1 & L2 & L3 & L4 & L5).
    cbn [snd]. split; [reflexivity|].
    unfold discard. receiver_fields. rewrite L1, L2, L3, L4, L5.
    do 5 (split; [reflexivity|]).
    intros Hr. unfold learn.
    destruct r as [? ? [h|] ? ? ? ?]; simpl in *;
      [split; reflexivity|contradiction].
  - exact (reachable_framed json_loads s R).
  - cbv zeta. unfold exec. rewrite on_stdin_empty. destruct s. simpl.
    repeat split.
Qed.

End ReceiverClaims.

Lemma dict_find_app (k : json) (d e : pydict) (v : json) :
  dict_find k d = Some v -> dict_find k (d ++ e) = Some v.
Proof.
  induction d as [|[k' v'] d IH]; cbn [dict_find app]; [discriminate|].
  destruct (py_eq k k'); auto.
Qed.

Lemma dict_find_last (k k' v : json) (d : pydict) :
  dict_find k d = None ->
  dict_find k (d ++ [(k', v)]) = if py_eq k k' then Some v else None.
Proof.
  induction d as [|[k0 v0] d IH]; cbn [dict_find app]; [reflexivity|].
  destruct (py_eq k k0); [discriminate|auto].
Qed.

Lemma filter_all {A} (f : A -> bool) (l : list A) :
  Forall (fun x => f x = true) l -> filter f l = l.
Proof.
  induction 1 as [|x l Hx _ IH]; [reflexivity|].
  cbn [filter]. now rewrite Hx, IH.
Qed.

Section Ordering.
Import Receiver.
Variable json_loads : string -> Exc json.
Variable printable : json -> bool.
Variable payloads : list pystr.








End Ordering.

(** ** The receiver on concrete datagrams *)

Lemma checksum256_sum_witness :
  Sender.checksum256 (JStr (py "AB")) = inr 131 /\
  Receiver.checksum256 (JStr (py "AB")) = inr 131 /\
  Sender.checksum256 (JStr (py "AB"))
  = inr (code_sum (utf8_bytes (py "AB")) mod 256).
Proof.
  assert (Ha : Forall (fun c => 0 <= c < 128) [65; 66])
    by (repeat constructor; lia).
  destruct (checksum256_sum (py "AB")) as (S & _ & R & B); [discriminate|].
  split; [exact S|]. split; [rewrite R; exact S|exact (B Ha)].
Defined.

(** C9, as stated, fails in two ways.  The empty chunk has the byte sum 0,
    but both [checksum256] raise [TypeError] on it and return no number.
    The chunk made of the character U+00E9 has the bytes 195 and 169, whose
    sum is 108 modulo 256, but both [checksum256] return 233, the code of
    the character. *)
Lemma checksum256_counterexample :
  (code_sum (utf8_bytes []) mod 256 = 0 /\
   Sender.checksum256 (JStr []) = inl TypeError /\
   Receiver.checksum256 (JStr []) = inl TypeError /\
   ~ (exists c, Sender.checksum256 (JStr []) = inr c /\ 0 <= c <= 255)) /\
  (utf8_bytes [233] = [195; 169] /\
   code_sum (utf8_bytes [233]) mod 256 = 108 /\
   Sender.checksum256 (JStr [233]) = inr 233 /\
   Receiver.checksum256 (JStr [233]) = inr 233).
Proof.
  split.
  - repeat split. intros (c & H & _). discriminate H.
  - repeat split.
Qed.




Lemma first_message_accepted :
  accepted sample_loads (data_text "1" "AB" "131")
           (Sender.data_msg 1 (py "AB") 131) (JInt 1).
Proof.
  apply (accepted_intro sample_loads _ _ _ (JInt 131) (JStr (py "AB")) 131);
    vm_compute; reflexivity.
Qed.




Lemma empty_payload_never_valid_witness :
  Receiver.sent
    (exec (Receiver.run_conn sample_loads utf8_strict
             (data_text "3" "" "0") peer)
          Receiver.init) = [] /\
  Forall framed (Sender.wire collapsed).
Proof.
  assert (Hl : sample_loads (data_text "3" "" "0")
               = inr (Sender.data_msg 3 [] 0)) by (vm_compute; reflexivity).
  destruct (empty_payload_never_valid sample_loads utf8_strict
              (data_text "3" "" "0")
              peer Receiver.init (Sender.data_msg 3 [] 0) collapsed
              Hl eq_refl collapsed_reachable)
    as (_ & (_ & S & _) & (W & _) & _).
  split; [exact S|exact W].
Defined.

(** C10, as stated, fails on a first datagram: a message with an empty
    payload is dropped, but not without a change of state, since the
    receiver has taken its sender for its peer. *)
Lemma empty_payload_counterexample :
  sample_loads (data_text "3" "" "0") = inr (Sender.data_msg 3 [] 0) /\
  Receiver.remote_host Receiver.init = None /\
  let r' := exec (Receiver.run_conn sample_loads utf8_strict
                    (data_text "3" "" "0") peer) Receiver.init in
  Receiver.sent r' = [] /\
  Receiver.remote_host r' = Some (py "127.0.0.1") /\
  Receiver.remote_port r' = Some 5000.
Proof.
  vm_compute. repeat split.
Qed.




(** * Further properties *)

(** ** More about the checksum *)

Lemma code_sum_app (a b : pystr) : code_sum (a ++ b) = code_sum a + code_sum b.
Proof.
  unfold code_sum. induction a as [|x a IH]; simpl; [reflexivity|].
  rewrite IH. lia.
Qed.

Lemma code_sum_perm (a b : pystr) :
  Permutation a b -> code_sum a = code_sum b.
Proof.
  unfold code_sum. induction 1; simpl; lia.
Qed.

(** X1: the checksum of two chunks put together is the sum of their
    checksums modulo 256. *)
Theorem checksum256_app (a b : pystr) (ca cb : Z) :
  Receiver.checksum256 (JStr a) = inr ca ->
  Receiver.checksum256 (JStr b) = inr cb ->
  Receiver.checksum256 (JStr (a ++ b)) = inr ((ca + cb) mod 256).
Proof.
  rewrite !receiver_checksum256_str. intros Ha Hb.
  destruct a as [|x a]; [discriminate|].
  destruct b as [|y b]; [discriminate|].
  injection Ha as <-. injection Hb as <-.
  cbn [app]. rewrite <- Zplus_mod.
  change (x :: a ++ y :: b) with ((x :: a) ++ y :: b).
  now rewrite code_sum_app.
Qed.

(** X2: the checksum does not see the order of the characters: two chunks
    that are rearrangements of each other have the same checksum (or both
    none). *)
Theorem checksum256_permutation (a b : pystr) :
  Permutation a b ->
  Receiver.checksum256 (JStr a) = Receiver.checksum256 (JStr b).
Proof.
  intros P. rewrite !receiver_checksum256_str.
  destruct a as [|x a].
  - apply Permutation_nil in P. now subst.
  - destruct b as [|y b]; [apply Permutation_sym, Permutation_nil in P;
                           discriminate|].
    now rewrite (code_sum_perm _ _ P).
Qed.

(** X3: replacing one character of a chunk by another changes the checksum
    unless the two character codes differ by a multiple of 256. *)
Theorem checksum256_single_change (a b : pystr) (x y : Z) :
  Receiver.checksum256 (JStr (a ++ x :: b))
  = Receiver.checksum256 (JStr (a ++ y :: b))
  <-> x mod 256 = y mod 256.
Proof.
  rewrite !receiver_checksum256_str.
  assert (E : forall z, match a ++ z :: b with
                        | [] => @inl exn Z TypeError
                        | _ :: _ => inr (code_sum (a ++ z :: b) mod 256)
                        end = inr ((code_sum a + code_sum b + z) mod 256)).
  { intros z. destruct (a ++ z :: b) eqn:F;
      [destruct a; discriminate|].
    rewrite <- F, code_sum_app. unfold code_sum at 2. simpl.
    fold (code_sum b). do 2 f_equal. lia. }
  rewrite !E. rewrite (Z.cong_iff_0 x y).
  split.
  - intros H. injection H as H. apply Z.cong_iff_0 in H.
    rewrite <- H. f_equal. lia.
  - intros H. f_equal. apply Z.cong_iff_0. rewrite <- H. f_equal. lia.
Qed.

(** ** Pending messages and their ids *)

Lemma py_eq_int_r (k : json) (i : Z) :
  py_eq k (JInt i) = true <-> key_int k = Some i.
Proof.
  unfold py_eq. destruct k as [|b|z|f|s|l|fields]; cbn [key_int];
    try (split; intros H; discriminate);
    try (rewrite Z.eqb_eq; split; intros H; congruence).
  destruct (float_int f) as [x|]; [|split; intros H; discriminate].
  rewrite Z.eqb_eq. split; intros H; congruence.
Qed.

Lemma ids_between_weaken (lo lo' hi hi' : Z) (d : pydict) :
  ids_between lo hi d -> lo' <= lo -> hi <= hi' -> ids_between lo' hi' d.
Proof.
  revert lo lo'. induction d as [|[k v] d IH]; intros lo lo' H Hl Hh;
    [exact I|].
  destruct H as (i & data & -> & -> & Hd & Hi & Hr).
  exists i, data. repeat split; try assumption; try lia.
  apply (IH i i Hr); lia.
Qed.

Lemma ids_between_find_none (lo hi : Z) (d : pydict) (k : json) :
  ids_between lo hi d ->
  (forall i, key_int k = Some i -> i <= lo \/ hi < i) ->
  dict_find k d = None.
Proof.
  revert lo. induction d as [|[k' v] d IH]; intros lo H Hk; [reflexivity|].
  destruct H as (i & data & -> & -> & Hd & Hi & Hr).
  cbn [dict_find]. destruct (py_eq k (JInt i)) eqn:E.
  - apply py_eq_int_r in E. destruct (Hk i E); lia.
  - apply (IH i Hr). intros j Hj. destruct (Hk j Hj); lia.
Qed.

Lemma ids_between_snoc (lo hi i : Z) (d : pydict) (data : pystr) :
  ids_between lo hi d -> lo <= hi -> hi < i -> data <> [] ->
  ids_between lo i
    (d ++ [(JInt i, Sender.data_msg i data (code_sum data mod 256))]).
Proof.
  revert lo. induction d as [|[k v] d IH]; intros lo H Hl Hh Hd.
  - cbn [app ids_between]. exists i, data. repeat split; auto; lia.
  - destruct H as (j & data' & -> & -> & Hd' & Hj & Hr).
    cbn [app ids_between]. exists j, data'.
    repeat split; try assumption; try lia.
    apply IH; auto; lia.
Qed.

Lemma ids_between_pop (lo hi : Z) (d : pydict) (k : json) :
  ids_between lo hi d -> ids_between lo hi (dict_pop k d).
Proof.
  revert lo. induction d as [|[k' v] d IH]; intros lo H; [exact I|].
  destruct H as (i & data & -> & -> & Hd & Hi & Hr).
  cbn [dict_pop]. destruct (py_eq k (JInt i)).
  - apply (ids_between_weaken i lo hi hi); auto; lia.
  - exists i, data. repeat split; auto; lia.
Qed.

(** Popping a key that is stored removes it and nothing else. *)
Lemma ids_between_pop_find (lo hi : Z) (d : pydict) (k : json) (i : Z) :
  ids_between lo hi d ->
  key_int k = Some i ->
  dict_find k (dict_pop k d) = None /\
  (forall j, j <> i ->
             dict_find (JInt j) (dict_pop k d) = dict_find (JInt j) d) /\
  (dict_find k d <> None ->
   length (dict_pop k d) = (length d - 1)%nat /\ (0 < length d)%nat).
Proof.
  intros H Hk. revert lo H.
  induction d as [|[k' v] d IH]; intros lo H.
  - cbn [dict_pop dict_find].
    split; [reflexivity|]. split; [reflexivity|]. intros C. contradiction.
  - destruct H as (i' & data & -> & -> & Hd & Hi & Hr).
    cbn [dict_pop dict_find]. destruct (py_eq k (JInt i')) eqn:E.
    + apply py_eq_int_r in E. rewrite Hk in E. injection E as <-.
      split; [|split].
      * apply (ids_between_find_none i hi d k Hr).
        intros j Hj. rewrite Hk in Hj. injection Hj as <-. lia.
      * intros j Hj.
        replace (py_eq (JInt j) (JInt i)) with false; [reflexivity|].
        symmetry. unfold py_eq. cbn [key_int]. apply Z.eqb_neq. exact Hj.
      * intros _. cbn [length]. lia.
    + destruct (IH i' Hr) as (A & B & C).
      cbn [dict_find]. rewrite E. split; [exact A|]. split.
      * intros j Hj. destruct (py_eq (JInt j) (JInt i')); auto.
      * intros F. destruct (C F) as (C1 & C2). cbn [length]. lia.
Qed.

Lemma ids_between_keys (lo hi : Z) (d : pydict) :
  ids_between lo hi d ->
  exists ids, map fst d = map JInt ids /\
              StronglySorted Z.lt ids /\
              Forall (fun i => lo < i <= hi) ids.
Proof.
  revert lo. induction d as [|[k v] d IH]; intros lo H.
  - exists []. repeat split; constructor.
  - destruct H as (i & data & -> & -> & Hd & Hi & Hr).
    destruct (IH i Hr) as (ids & E & S & F).
    exists (i :: ids). cbn [map fst]. rewrite E. repeat split.
    + constructor; [exact S|].
      eapply Forall_impl; [|exact F]. cbn. intros; lia.
    + constructor; [exact Hi|].
      eapply Forall_impl; [|exact F]. cbn. intros; lia.
Qed.

Section SenderIds.
Import Sender.
Variable json_loads : string -> Exc json.

(** What [on_stdin] does with a chunk when every pending id is at most the
    counter. *)
Lemma on_stdin_chunk_fields (c : Z) (rest : pystr) (s : state) :
  ids_between 0 (id_generator s) (msgs_waiting_ack s) ->
  0 <= id_generator s ->
  let id := id_generator s + 1 in
  let msg := data_msg id (c :: rest) (code_sum (c :: rest) mod 256) in
  let s' := exec (on_stdin (c :: rest)) s in
  id_generator s' = id /\
  msgs_waiting_ack s' = msgs_waiting_ack s ++ [(JInt id, msg)] /\
  wire s' = wire s ++ [msg] /\
  waiting s' = (waiting s || (window s <=? len (msgs_waiting_ack s) + 1)) /\
  finished s' = finished s /\ rtt s' = rtt s /\
  last_msg_sent_time s' = clock s (ticks s).
Proof.
  intros H H0. cbv zeta. unfold exec. rewrite on_stdin_chunk. cbv zeta.
  rewrite send_msg_eq.
  assert (N : dict_find (JInt (id_generator s + 1)) (msgs_waiting_ack s)
              = None).
  { apply (ids_between_find_none 0 (id_generator s) _ _ H).
    cbn [key_int]. intros i Hi. injection Hi as <-. lia. }
  destruct s. cbn [id_generator msgs_waiting_ack] in *. simpl.
  rewrite (dict_set_new _ _ _ N).
  unfold len. rewrite length_app. cbn [length]. rewrite Nat2Z.inj_add.
  change (Z.of_nat 1) with 1.
  destruct (window0 <=? Z.of_nat (length msgs_waiting_ack0) + 1);
    simpl; repeat split; try reflexivity;
    destruct waiting0; reflexivity.
Qed.

Lemma step_ids (s s' : state) :
  step json_loads s s' ->
  0 <= id_generator s /\
  ids_between 0 (id_generator s) (msgs_waiting_ack s) ->
  0 <= id_generator s' /\
  ids_between 0 (id_generator s') (msgs_waiting_ack s').
Proof.
  intros St (H0 & H). destruct St as [s k|s data _ _|s|s].
  - destruct (on_socket_fields json_loads k s)
      as (_ & _ & Hi & _ & _ & _ & _ & _ & _ & [Hm|[id Hm]]);
      rewrite Hi, Hm; (split; [exact H0|]).
    + exact H.
    + exact (ids_between_pop 0 (id_generator s) _ id H).
  - destruct data as [|c rest].
    + unfold exec. rewrite on_stdin_empty. destruct s. simpl in *. auto.
    + destruct (on_stdin_chunk_fields c rest s H H0) as (A & B & _).
      rewrite A, B. split; [lia|].
      apply (ids_between_snoc 0 (id_generator s)); auto; try lia.
      discriminate.
  - unfold exec. rewrite congestion_control_eq. destruct s. simpl in *.
    repeat match goal with
           | |- context [if ?c then _ else _] => destruct c; simpl
           end; auto.
  - unfold exec. rewrite retransmit_msgs_eq. cbv zeta.
    destruct (_ <=? _)%float; [|destruct s; simpl in *; auto].
    assert (G : forall msgs i s0,
               id_generator (snd (retransmit_loop msgs i s0))
               = id_generator s0 /\
               msgs_waiting_ack (snd (retransmit_loop msgs i s0))
               = msgs_waiting_ack s0).
    { induction msgs as [|m msgs IH]; intros i s0; [split; reflexivity|].
      rewrite retransmit_loop_cons. cbv zeta.
      destruct (send_msg_fields m s0) as (_ & Sm & _ & _ & _ & Si & _).
      destruct (_ <=? _); cbn [snd]; [auto|].
      destruct (IH (i + 1) (exec (send_msg m) s0)) as (A & B).
      rewrite A, B. auto. }
    destruct (G (dict_values (msgs_waiting_ack s)) 0
                (set_ticks (S (ticks s)) s)) as (A & B).
    rewrite A, B. destruct s. simpl in *. auto.
Qed.

Lemma reachable_ids (s : state) :
  reachable json_loads s ->
  0 <= id_generator s /\
  ids_between 0 (id_generator s) (msgs_waiting_ack s).
Proof.
  induction 1 as [clock|s s' _ IH St].
  - simpl. split; [lia|exact I].
  - eapply step_ids; eassumption.
Qed.

End SenderIds.

Section SenderMore.
Import Sender.
Variable json_loads : string -> Exc json.

Lemma fatal_some (ev : ready) (e : exn) :
  fatal json_loads ev = Some e <->
  exists k, on_sock ev = Some k /\ json_loads k = inl e /\ caught e = false.
Proof.
  unfold fatal. split.
  - destruct (on_sock ev) as [k|]; [|discriminate].
    destruct (json_loads k) as [e'|msg] eqn:Hl; [|discriminate].
    destruct (caught e') eqn:C; [discriminate|].
    intros H. injection H as <-. exists k. auto.
  - intros (k & -> & -> & ->). reflexivity.
Qed.

Lemma on_socket_result (k : string) (s : state) :
  (forall e, json_loads k = inl e -> caught e = true) ->
  on_socket json_loads k s = (inr tt, exec (on_socket json_loads k) s).
Proof.
  intros Hc. unfold exec.
  destruct (on_socket_fields json_loads k s) as ([H|(e & Hl & C & _)] & _).
  - destruct (on_socket json_loads k s); simpl in *. now subst.
  - rewrite (Hc e Hl) in C. discriminate.
Qed.

Lemma on_stdin_result (data : pystr) (s : state) :
  on_stdin data s = (inr tt, exec (on_stdin data) s).
Proof.
  unfold exec. destruct (on_stdin_fields data s) as (H & _).
  destruct (on_stdin data s); simpl in *. now subst.
Qed.

Lemma retransmit_msgs_result (s : state) :
  0 < window s ->
  retransmit_msgs s = (inr tt, exec retransmit_msgs s).
Proof.
  intros W. unfold exec. destruct (retransmit_msgs_fields s W) as (H & _).
  destruct (retransmit_msgs s); simpl in *. now subst.
Qed.

Lemma after_events_window (ev : ready) (s : state) :
  same_window s (after_events json_loads ev s).
Proof.
  unfold after_events, same_window.
  assert (A : same_window s
                (match on_sock ev with
                 | Some k => exec (on_socket json_loads k) s
                 | None => s
                 end)).
  { destruct (on_sock ev) as [k|]; [|split; reflexivity].
    now destruct (on_socket_fields json_loads k s) as (_ & A & _). }
  set (s1 := match on_sock ev with Some k => _ | None => s end) in *.
  destruct A as (A1 & A2).
  destruct (on_input ev) as [data|]; [|auto].
  destruct (negb _ && negb _); [|auto].
  destruct (on_stdin_fields data s1) as (_ & B1 & B2).
  rewrite B1, B2. auto.
Qed.

(** One round of the loop, spelled out: it ends at once with an exception
    of [json.loads] that is not caught, and goes through otherwise. *)
Lemma run_round_eq (ev : ready) (s : state) :
  0 < window s ->
  run_round json_loads ev s =
  match fatal json_loads ev with
  | Some e => (inl e, s)
  | None =>
      let s2 := after_events json_loads ev s in
      if finished s2 && (len (msgs_waiting_ack s2) =? 0) then (inr true, s2)
      else (inr false, exec retransmit_msgs (exec congestion_control s2))
  end.
Proof.
  intros W. destruct (fatal json_loads ev) as [e|] eqn:F.
  { apply fatal_some in F. destruct F as (k & Ek & Hl & C).
    unfold run_round. unfold bind at 1. unfold get at 1. cbv zeta.
    unfold bind at 1. rewrite Ek, (on_socket_raised json_loads k s e Hl), C.
    reflexivity. }
  unfold run_round, after_events.
  unfold bind at 1. unfold get at 1. cbv zeta.
  unfold bind at 1.
  assert (E1 : match on_sock ev with
               | Some k => on_socket json_loads k
               | None => ret tt
               end s
               = (inr tt, match on_sock ev with
                          | Some k => exec (on_socket json_loads k) s
                          | None => s
                          end)).
  { unfold fatal in F.
    destruct (on_sock ev) as [k|]; [apply on_socket_result|reflexivity].
    intros e Hl. rewrite Hl in F. destruct (caught e); [reflexivity|].
    discriminate. }
  rewrite E1.
  set (s1 := match on_sock ev with Some k => _ | None => s end).
  unfold bind at 1.
  assert (E2 : match on_input ev with
               | Some data =>
                   when (negb (waiting s) && negb (finished s))
                        (on_stdin data)
               | None => ret tt
               end s1
               = (inr tt, match on_input ev with
                          | Some data =>
                              if negb (waiting s) && negb (finished s)
                              then exec (on_stdin data) s1 else s1
                          | None => s1
                          end)).
  { destruct (on_input ev) as [data|]; [|reflexivity]. unfold when.
    destruct (negb _ && negb _); [apply on_stdin_result|reflexivity]. }
  rewrite E2.
  set (s2 := match on_input ev with Some data => _ | None => s1 end).
  unfold bind at 1. unfold get at 1.
  destruct (finished s2 && (len (msgs_waiting_ack s2) =? 0));
    [reflexivity|].
  unfold bind.
  assert (A1 : window s2 = window s)
    by (destruct (after_events_window ev s) as (A & _); exact A).
  assert (W2 : 0 < window (exec congestion_control s2)).
  { unfold exec. rewrite congestion_control_eq. cbn [snd].
    destruct s2. simpl in *.
    repeat match goal with
           | |- context [if ?c then _ else _] => destruct c eqn:?; simpl
           end; rewrite ?Z.ltb_lt in *; lia. }
  assert (Ecc : congestion_control s2
                = (inr tt, exec congestion_control s2))
    by (unfold exec; rewrite congestion_control_eq; reflexivity).
  rewrite Ecc, (retransmit_msgs_result _ W2). reflexivity.
Qed.

End SenderMore.

Lemma key_int_hashable (k : json) (i : Z) :
  key_int k = Some i -> hashable k = true.
Proof. destruct k; try discriminate; reflexivity. Qed.

Lemma ids_between_find_int (lo hi : Z) (d : pydict) (k : json) (i : Z) :
  ids_between lo hi d -> key_int k = Some i ->
  dict_find k d = dict_find (JInt i) d.
Proof.
  intros H Hk. revert lo H.
  induction d as [|[k' v] d IH]; intros lo H; [reflexivity|].
  destruct H as (j & data & -> & -> & Hd & Hj & Hr).
  cbn [dict_find].
  assert (E : py_eq k (JInt j) = py_eq (JInt i) (JInt j)).
  { destruct (py_eq k (JInt j)) eqn:A, (py_eq (JInt i) (JInt j)) eqn:B;
      try reflexivity.
    - apply py_eq_int_r in A. rewrite Hk in A. injection A as ->.
      unfold py_eq in B. cbn [key_int] in B. rewrite Z.eqb_refl in B.
      discriminate.
    - apply py_eq_int_r in B. cbn [key_int] in B. injection B as ->.
      assert (C : py_eq k (JInt j) = true) by (apply py_eq_int_r; exact Hk).
      congruence. }
  rewrite E. destruct (py_eq (JInt i) (JInt j)); [reflexivity|].
  apply (IH j Hr).
Qed.

Lemma dict_pop_length (k : json) (d : pydict) :
  (length (dict_pop k d) <= length d)%nat.
Proof.
  induction d as [|[k' v] d IH]; cbn [dict_pop length]; [lia|].
  destruct (py_eq k k'); cbn [length]; lia.
Qed.

Lemma dict_pop_snoc (k k' v : json) (d : pydict) :
  dict_find k d = None ->
  dict_pop k (d ++ [(k', v)]) = if py_eq k k' then d else d ++ [(k', v)].
Proof.
  induction d as [|[k0 v0] d IH]; cbn [dict_find dict_pop app].
  - intros _. destruct (py_eq k k'); reflexivity.
  - destruct (py_eq k k0); [discriminate|]. intros H. rewrite (IH H).
    destruct (py_eq k k'); reflexivity.
Qed.

Lemma In_firstn {A} (x : A) (n : nat) (l : list A) :
  In x (firstn n l) -> In x l.
Proof.
  intros H. rewrite <- (firstn_skipn n l). apply in_or_app. now left.
Qed.

Section SenderExtras.
Import Sender.
Variable json_loads : string -> Exc json.

Lemma retransmit_loop_keeps (msgs : list json) :
  forall (i : Z) (s : state),
    let s' := snd (retransmit_loop msgs i s) in
    id_generator s' = id_generator s /\
    msgs_waiting_ack s' = msgs_waiting_ack s /\
    finished s' = finished s /\
    same_window s s' /\
    exists n, wire s' = wire s ++ firstn n msgs.
Proof.
  induction msgs as [|m msgs IH]; intros i s; cbv zeta.
  - cbn. unfold same_window. repeat split. exists 0%nat.
    now rewrite app_nil_r.
  - rewrite retransmit_loop_cons. cbv zeta.
    destruct (send_msg_fields m s)
      as ((Sw & St) & Sm & _ & _ & _ & Si & Sf & Swire & _).
    destruct (_ <=? _); cbn [snd].
    + unfold same_window. repeat split; auto.
      exists 1%nat. exact Swire.
    + destruct (IH (i + 1) (exec (send_msg m) s))
        as (A & B & C & (D1 & D2) & n & E).
      unfold same_window. rewrite A, B, C, D1, D2, E, Swire.
      repeat split; auto.
      exists (S n). rewrite <- app_assoc. reflexivity.
Qed.

Lemma retransmit_msgs_keeps (s : state) :
  let s' := exec retransmit_msgs s in
  id_generator s' = id_generator s /\
  msgs_waiting_ack s' = msgs_waiting_ack s /\
  finished s' = finished s /\
  same_window s s' /\
  exists n, wire s' = wire s ++ firstn n (dict_values (msgs_waiting_ack s)).
Proof.
  cbv zeta. unfold exec. rewrite retransmit_msgs_eq. cbv zeta.
  destruct (_ <=? _)%float.
  - pose proof (retransmit_loop_keeps (dict_values (msgs_waiting_ack s)) 0
                  (set_ticks (S (ticks s)) s)) as K.
    cbv zeta in K. destruct s. exact K.
  - destruct s. unfold same_window. simpl. repeat split.
    exists 0%nat. now rewrite app_nil_r.
Qed.

Lemma congestion_control_keeps (s : state) :
  let s' := exec congestion_control s in
  id_generator s' = id_generator s /\
  msgs_waiting_ack s' = msgs_waiting_ack s /\
  finished s' = finished s /\ wire s' = wire s /\
  (window_inv s ->
   target_window s' <= target_window s /\ window s' <= window s + 1).
Proof.
  cbv zeta. unfold exec, window_inv. rewrite congestion_control_eq.
  destruct s. simpl.
  repeat match goal with
         | |- context [if ?c then _ else _] => destruct c eqn:?; simpl
         end; repeat split; try reflexivity; lia.
Qed.

(** X4: the ids of the pending messages are integers between 1 and the id
    counter, stored in growing order, so no id is pending twice. *)
Theorem pending_ids_sorted (s : state) :
  reachable json_loads s ->
  0 <= id_generator s /\
  exists ids,
    pending_ids s = map JInt ids /\
    StronglySorted Z.lt ids /\
    Forall (fun i => 1 <= i <= id_generator s) ids.
Proof.
  intros R. destruct (reachable_ids json_loads s R) as (H0 & H).
  split; [exact H0|].
  destruct (ids_between_keys _ _ _ H) as (ids & E & S & F).
  exists ids. repeat split; auto.
  eapply Forall_impl; [|exact F]. cbn. intros; lia.
Qed.

(** X5: a chunk that is read gets the next id, is framed with its checksum,
    put last among the pending messages and sent once; [waiting] is then
    set exactly if it was set or the pending messages fill the window. *)
Theorem chunk_submitted (data : pystr) (s : state) :
  reachable json_loads s ->
  data <> [] ->
  let s' := exec (on_stdin data) s in
  let id := id_generator s + 1 in
  exists cs,
    checksum256 (JStr data) = inr cs /\
    id_generator s' = id /\
    msgs_waiting_ack s'
    = msgs_waiting_ack s ++ [(JInt id, data_msg id data cs)] /\
    wire s' = wire s ++ [data_msg id data cs] /\
    waiting s'
    = (waiting s || (window s <=? len (msgs_waiting_ack s) + 1)).
Proof.
  intros R Hd. destruct data as [|c rest]; [contradiction|].
  destruct (reachable_ids json_loads s R) as (H0 & H).
  destruct (on_stdin_chunk_fields c rest s H H0) as (A & B & C & D & _).
  exists (code_sum (c :: rest) mod 256).
  split; [apply sender_checksum256_chunk|]. auto.
Qed.

(** X6: an acknowledgment of a pending id removes the message with that id
    and no other, sends nothing and clears [waiting]. *)
Theorem ack_removes_pending (k : string) (s : state) (msg id : json)
        (i : Z) :
  reachable json_loads s ->
  json_loads k = inr msg ->
  getitem msg (py "id") = inr id ->
  key_int id = Some i ->
  getitem msg (py "type") = inr (JStr (py "ack")) ->
  dict_find (JInt i) (msgs_waiting_ack s) <> None ->
  let s' := exec (on_socket json_loads k) s in
  dict_find (JInt i) (msgs_waiting_ack s') = None /\
  len (msgs_waiting_ack s') = len (msgs_waiting_ack s) - 1 /\
  (forall j, j <> i ->
             dict_find (JInt j) (msgs_waiting_ack s')
             = dict_find (JInt j) (msgs_waiting_ack s)) /\
  wire s' = wire s /\ waiting s' = false.
Proof.
  intros R Hl Hid Hk Hty Hp. cbv zeta.
  destruct (reachable_ids json_loads s R) as (_ & H).
  pose proof (ids_between_find_int _ _ _ _ _ H Hk) as F.
  assert (M : msgs_waiting_ack (exec (on_socket json_loads k) s)
              = dict_pop id (msgs_waiting_ack s) /\
              wire (exec (on_socket json_loads k) s) = wire s /\
              waiting (exec (on_socket json_loads k) s) = false).
  { unfold exec.
    rewrite (on_socket_decoded json_loads k s msg id Hl Hid
               (key_int_hashable _ _ Hk)).
    cbv zeta. rewrite F.
    destruct (dict_find (JInt i) (msgs_waiting_ack s)); [|contradiction].
    rewrite Hty, update_time_out_eq. destruct s. simpl.
    repeat split. }
  destruct M as (M & W & Wt). rewrite M, W, Wt.
  destruct (ids_between_pop_find _ _ _ _ _ H Hk) as (A & B & C).
  rewrite F in C. destruct (C Hp) as (C1 & C2).
  pose proof (ids_between_pop 0 (id_generator s) _ id H) as H'.
  rewrite <- (ids_between_find_int _ _ _ _ _ H' Hk).
  repeat split; auto. unfold len. lia.
Qed.

(** X7: a datagram that the sender cannot read as a message changes nothing
    but the log: [waiting], [rtt] and the pending messages stay, and the
    clock is not read. *)
Theorem unreadable_datagram_ignored (k : string) (s : state)
        (lines : list logline) :
  unreadable json_loads (msgs_waiting_ack s) k lines ->
  exec (on_socket json_loads k) s = set_stderr (stderr s ++ lines) s.
Proof.
  intros U. unfold exec.
  destruct U as [e H1 C|msg e H1 H2|msg id H1 H2 H3|msg id e H1 H2 H3 H4 H5].
  - rewrite (on_socket_raised json_loads k s e H1), C. reflexivity.
  - rewrite (on_socket_no_id json_loads k s msg e H1 H2). reflexivity.
  - rewrite (on_socket_bad_key json_loads k s msg id H1 H2 H3). reflexivity.
  - rewrite (on_socket_decoded json_loads k s msg id H1 H2 H3). cbv zeta.
    destruct (dict_find id (msgs_waiting_ack s)); [|contradiction].
    rewrite H5. destruct s. simpl. rewrite <- !app_assoc. reflexivity.
Qed.

(** X8: an exception leaves [run] only if [json.loads] raised it on one
    of the datagrams received and the [except] clause does not catch it.
    Nothing else in the loop raises, given that the reads of standard input
    return: no field access, no lookup, no checksum of a chunk that was
    read, no congestion control and no retransmission. *)
Theorem run_raises_only_uncaught (rounds : list ready) (s : state)
        (e : exn) :
  reachable json_loads s ->
  fst (run json_loads rounds s) = inl e ->
  exists k, In (Some k) (map on_sock rounds) /\
            json_loads k = inl e /\ caught e = false.
Proof.
  revert s. induction rounds as [|ev rest IH]; intros s R; [discriminate|].
  pose proof (reachable_window_inv json_loads s R) as Inv.
  pose proof (run_round_reachable json_loads ev s R) as R1.
  unfold exec in R1. cbn [run]. unfold bind.
  rewrite (run_round_eq json_loads ev s) in *
    by (unfold window_inv in Inv; lia).
  destruct (fatal json_loads ev) as [e'|] eqn:F.
  - cbn [fst]. intros H. injection H as <-.
    apply fatal_some in F. destruct F as (k & Ek & Hl & C).
    exists k. split; [left; exact Ek|auto].
  - cbv zeta in *. destruct (finished _ && _); cbn [fst snd] in *;
      [discriminate|].
    intros H. destruct (IH _ R1 H) as (k & Hin & Hl & C).
    exists k. split; [right; exact Hin|auto].
Qed.

(** A round that starts with [waiting] or [finished] set reads no chunk. *)
Lemma run_round_blocked (ev : ready) (s : state) :
  reachable json_loads s ->
  waiting s = true \/ finished s = true ->
  let s' := exec (run_round json_loads ev) s in
  id_generator s' = id_generator s /\
  len (msgs_waiting_ack s') <= len (msgs_waiting_ack s) /\
  finished s' = finished s.
Proof.
  intros R G. cbv zeta.
  pose proof (reachable_window_inv json_loads s R) as Inv.
  unfold exec.
  rewrite (run_round_eq json_loads ev s) by (unfold window_inv in Inv; lia).
  destruct (fatal json_loads ev) as [e|]; [cbn [snd]; repeat split; lia|].
  cbv zeta.
  assert (A : id_generator (after_events json_loads ev s) = id_generator s /\
              len (msgs_waiting_ack (after_events json_loads ev s))
              <= len (msgs_waiting_ack s) /\
              finished (after_events json_loads ev s) = finished s).
  { unfold after_events.
    replace (negb (waiting s) && negb (finished s)) with false
      by (destruct G as [-> | ->]; destruct (waiting s); reflexivity).
    set (s1 := match on_sock ev with
               | Some k => exec (on_socket json_loads k) s
               | None => s
               end).
    assert (B : match on_input ev with
                | Some data => if false then exec (on_stdin data) s1 else s1
                | None => s1
                end = s1) by (destruct (on_input ev); reflexivity).
    rewrite B. subst s1.
    destruct (on_sock ev) as [k|]; [|repeat split; lia].
    destruct (on_socket_fields json_loads k s)
      as (_ & _ & Hi & Hf & _ & _ & _ & _ & _ & [Hm|[id Hm]]);
      rewrite Hi, Hm, Hf; repeat split; try lia.
    pose proof (dict_pop_length id (msgs_waiting_ack s)). unfold len. lia. }
  destruct A as (A1 & A2 & A3).
  destruct (finished _ && _); cbn [snd]; [auto|].
  destruct (retransmit_msgs_keeps
              (exec congestion_control (after_events json_loads ev s)))
    as (B1 & B2 & B3 & _).
  destruct (congestion_control_keeps (after_events json_loads ev s))
    as (C1 & C2 & C3 & _).
  rewrite B1, B2, B3, C1, C2, C3. auto.
Qed.

(** X9: in a round that starts with [waiting] or [finished] set, no chunk
    is read, even if an acknowledgment clears [waiting] in that round: the
    id counter stays and no message becomes pending. *)
Theorem no_read_while_waiting (ev : ready) (s : state) :
  reachable json_loads s ->
  waiting s = true \/ finished s = true ->
  let s' := exec (run_round json_loads ev) s in
  id_generator s' = id_generator s /\
  len (msgs_waiting_ack s') <= len (msgs_waiting_ack s).
Proof.
  intros R G. destruct (run_round_blocked ev s R G) as (A & B & _). auto.
Qed.

(** X10: once the end of the input has been seen, [finished] stays set and
    nothing more is read: over any further rounds the id counter stays and
    the pending messages can only become fewer. *)
Theorem finished_is_final (rounds : list ready) (s : state) :
  reachable json_loads s ->
  finished s = true ->
  let s' := exec (run json_loads rounds) s in
  finished s' = true /\
  id_generator s' = id_generator s /\
  len (msgs_waiting_ack s') <= len (msgs_waiting_ack s).
Proof.
  revert s. induction rounds as [|ev rest IH]; intros s R F; cbv zeta.
  - unfold exec. cbn [run ret snd]. repeat split; auto; lia.
  - pose proof (run_round_reachable json_loads ev s R) as R1.
    destruct (run_round_blocked ev s R (or_intror F)) as (A & B & C).
    cbv zeta in *. unfold exec in *. cbn [run]. unfold bind.
    destruct (run_round json_loads ev s) as [[e|[|]] s1]; cbn [fst snd] in *.
    + repeat split; congruence || lia.
    + unfold ret. cbn [snd]. repeat split; congruence || lia.
    + destruct (IH s1 R1 ltac:(congruence)) as (I1 & I2 & I3).
      repeat split; congruence || lia.
Qed.

(** X11: over any number of rounds [target_window] never grows, and
    [window] grows by at most one a round. *)
Theorem target_window_never_grows (rounds : list ready) (s : state) :
  reachable json_loads s ->
  let s' := exec (run json_loads rounds) s in
  target_window s' <= target_window s /\
  window s' <= window s + len rounds.
Proof.
  revert s. induction rounds as [|ev rest IH]; intros s R; cbv zeta.
  - unfold exec, len. simpl. lia.
  - pose proof (reachable_window_inv json_loads s R) as Inv.
    pose proof (run_round_reachable json_loads ev s R) as R1.
    unfold exec in *. cbn [run]. unfold bind.
    rewrite (run_round_eq json_loads ev s) in *
      by (unfold window_inv in Inv; lia).
    destruct (fatal json_loads ev) as [e|];
      [cbn [fst snd]; unfold len; lia|].
    cbv zeta in *.
    destruct (after_events_window json_loads ev s) as (W & T).
    assert (L : len (ev :: rest) = len rest + 1)
      by (unfold len; cbn [length]; lia).
    assert (L0 : 0 <= len rest) by (unfold len; lia).
    destruct (finished _ && _) eqn:E; unfold ret in *; cbn [fst snd] in *.
    + rewrite W, T, L. lia.
    + specialize (IH _ R1). cbv zeta in IH. destruct IH as (I1 & I2).
      destruct (retransmit_msgs_keeps
                  (exec congestion_control (after_events json_loads ev s)))
        as (_ & _ & _ & (B1 & B2) & _).
      assert (Inv2 : window_inv (after_events json_loads ev s))
        by (unfold window_inv in *; rewrite W, T; exact Inv).
      destruct (congestion_control_keeps (after_events json_loads ev s))
        as (_ & _ & _ & _ & C).
      destruct (C Inv2) as (C1 & C2).
      unfold exec in *. rewrite B1, B2 in *. rewrite L. lia.
Qed.

Lemma step_wire (s s' : state) :
  reachable json_loads s ->
  step json_loads s s' ->
  id_generator s <= id_generator s' /\
  exists more,
    wire s' = wire s ++ more /\
    incl more (dict_values (msgs_waiting_ack s')).
Proof.
  intros R St. destruct St as [s k|s data _ _|s|s].
  - destruct (on_socket_fields json_loads k s)
      as (_ & _ & Hi & _ & Hw & _).
    split; [lia|]. exists []. rewrite Hw, app_nil_r.
    split; [reflexivity|]. intros x [].
  - destruct data as [|c rest].
    + unfold exec. rewrite on_stdin_empty. destruct s. simpl.
      split; [lia|]. exists []. rewrite app_nil_r.
      split; [reflexivity|]. intros x [].
    + destruct (reachable_ids json_loads s R) as (H0 & H).
      destruct (on_stdin_chunk_fields c rest s H H0) as (A & B & C & _).
      split; [lia|]. eexists. split; [exact C|]. rewrite B.
      intros x [<-|[]]. unfold dict_values. rewrite map_app.
      apply in_or_app. right. left. reflexivity.
  - destruct (congestion_control_keeps s) as (Hi & _ & _ & Hw & _).
    split; [lia|]. exists []. rewrite Hw, app_nil_r.
    split; [reflexivity|]. intros x [].
  - destruct (retransmit_msgs_keeps s) as (Hi & Hm & _ & _ & n & Hw).
    split; [lia|]. eexists. split; [exact Hw|]. rewrite Hm.
    intros x Hx. eapply In_firstn. exact Hx.
Qed.

(** X12: whatever the sender does, it only adds to what it has sent, and
    what it adds are messages that are pending afterwards: a message that
    has been acknowledged is never sent again. *)
Theorem only_pending_sent (s s' : state) :
  reachable json_loads s ->
  step json_loads s s' ->
  exists more,
    wire s' = wire s ++ more /\
    incl more (dict_values (msgs_waiting_ack s')).
Proof.
  intros R St. destruct (step_wire s s' R St) as (_ & H). exact H.
Qed.

(** X13: a message that is not an acknowledgment removes nothing, even if
    its id is pending; [waiting] is cleared all the same. *)
Theorem only_acks_remove (k : string) (s : state) (msg id ty : json) :
  json_loads k = inr msg ->
  getitem msg (py "id") = inr id ->
  hashable id = true ->
  getitem msg (py "type") = inr ty ->
  py_eq ty (JStr (py "ack")) = false ->
  let s' := exec (on_socket json_loads k) s in
  msgs_waiting_ack s' = msgs_waiting_ack s /\
  wire s' = wire s /\ waiting s' = false.
Proof.
  intros Hl Hid Hh Hty Hne. cbv zeta. unfold exec.
  rewrite (on_socket_decoded json_loads k s msg id Hl Hid Hh). cbv zeta.
  rewrite Hty, Hne.
  destruct (dict_find id (msgs_waiting_ack s));
    rewrite update_time_out_eq; destruct s; simpl; repeat split.
Qed.

Lemma ids_between_values (lo hi : Z) (d : pydict) :
  ids_between lo hi d ->
  Forall (fun m => exists id data,
                     m = data_msg id data (code_sum data mod 256) /\
                     data <> [] /\ lo < id <= hi)
         (dict_values d).
Proof.
  revert lo. induction d as [|[k v] d IH]; intros lo H; [constructor|].
  destruct H as (i & data & -> & -> & Hd & Hi & Hr).
  cbn [dict_values map snd]. constructor; [eauto 6|].
  eapply Forall_impl; [|exact (IH i Hr)]. cbn.
  intros m (id & dt & E & Hn & Hb). exists id, dt. repeat split; auto; lia.
Qed.

(** Everything that has been sent was framed from a chunk under an id that
    has been given out. *)
Lemma reachable_wire (s : state) :
  reachable json_loads s ->
  Forall (fun m => exists id data,
                     m = data_msg id data (code_sum data mod 256) /\
                     data <> [] /\ 0 < id <= id_generator s)
         (wire s).
Proof.
  induction 1 as [clock|s s' R IH St]; [constructor|].
  destruct (step_wire s s' R St) as (Hi & more & Hw & Hin).
  pose proof (reachable_step json_loads s s' R St) as R'.
  destruct (reachable_ids json_loads s' R') as (_ & H').
  pose proof (ids_between_values _ _ _ H') as V.
  rewrite Hw. apply Forall_app. split.
  - eapply Forall_impl; [|exact IH]. cbn.
    intros m (id & dt & E & Hn & Hb). exists id, dt.
    repeat split; auto; lia.
  - rewrite Forall_forall in *. intros m Hm. apply V, Hin, Hm.
Qed.

End SenderExtras.

(** ** More about the receiver *)

Lemma str_eqb_refl (s : pystr) : str_eqb s s = true.
Proof.
  induction s as [|c s IH]; [reflexivity|].
  cbn [str_eqb]. now rewrite Z.eqb_refl, IH.
Qed.

Lemma py_eq_refl (k : json) : hashable k = true -> py_eq k k = true.
Proof.
  destruct k as [|b|z|f|s|l|fields]; cbn; try discriminate; intros _;
    try reflexivity.
  - apply Z.eqb_refl.
  - apply Z.eqb_refl.
  - unfold is_nan. destruct (f =? f)%float; reflexivity.
  - apply str_eqb_refl.
Qed.

Lemma ids_from_app (lo : Z) (n m : nat) :
  ids_from lo (n + m) = ids_from lo n ++ ids_from (lo + Z.of_nat n) m.
Proof.
  unfold ids_from. rewrite seq_app, map_app. f_equal.
  assert (K : forall m a,
             map (fun k => lo + Z.of_nat k) (seq (a + n) m)
             = map (fun k => lo + Z.of_nat n + Z.of_nat k) (seq a m)).
  { clear m. induction m as [|m IH]; intros a; [reflexivity|].
    cbn [seq map]. f_equal; [lia|]. exact (IH (S a)). }
  exact (K m 0%nat).
Qed.

Lemma ids_from_S (lo : Z) (n : nat) :
  ids_from lo (S n) = ids_from lo n ++ [lo + Z.of_nat n].
Proof.
  replace (S n) with (n + 1)%nat by lia. rewrite ids_from_app.
  unfold ids_from at 2. cbn [seq map].
  replace (lo + Z.of_nat n + Z.of_nat 0) with (lo + Z.of_nat n) by lia.
  reflexivity.
Qed.

Lemma ids_from_in (lo : Z) (n : nat) (i : Z) :
  In i (ids_from lo n) <-> lo <= i < lo + Z.of_nat n.
Proof.
  unfold ids_from. rewrite in_map_iff. split.
  - intros (k & <- & Hk). apply in_seq in Hk. lia.
  - intros Hi. exists (Z.to_nat (i - lo)). split; [lia|].
    apply in_seq. lia.
Qed.

Lemma stored_data_app (d e : pydict) (i : Z) :
  dict_find (JInt i) d <> None ->
  stored_data (d ++ e) i = stored_data d i.
Proof.
  unfold stored_data. destruct (dict_find (JInt i) d) as [m|] eqn:F;
    [|contradiction].
  intros _. now rewrite (dict_find_app _ _ _ _ F).
Qed.

Section ReceiverExtras.
Import Receiver.
Variable json_loads : string -> Exc json.
Variable printable : json -> bool.

Lemma valid_id_accepted (data : string) (id : json) :
  valid_id json_loads data = Some id ->
  exists msg, accepted json_loads data msg id.
Proof.
  unfold valid_id.
  destruct (json_loads data) as [e|msg] eqn:E1; [discriminate|].
  destruct (getitem msg (py "cs")) as [e|cs] eqn:E2; [discriminate|].
  destruct (getitem msg (py "data")) as [e|payload] eqn:E3; [discriminate|].
  destruct (checksum256 payload) as [e|sum] eqn:E4; [discriminate|].
  destruct (py_eq cs (JInt sum)) eqn:E5; [|discriminate].
  destruct (getitem msg (py "id")) as [e|id'] eqn:E6; [discriminate|].
  destruct (hashable id') eqn:E7; [|discriminate].
  intros H. injection H as <-. exists msg.
  eapply accepted_intro; eassumption.
Qed.

Lemma accepted_valid_id (data : string) (msg id : json) :
  accepted json_loads data msg id -> valid_id json_loads data = Some id.
Proof.
  intros [cs payload sum H1 H2 H3 H4 H5 H6 H7]. unfold valid_id.
  now rewrite H1, H2, H3, H4, H5, H6, H7.
Qed.

Lemma valid_id_rejected (data : string) :
  valid_id json_loads data = None ->
  (forall e, json_loads data = inl e -> caught e = true) ->
  rejected json_loads data.
Proof.
  intros V Hc.
  destruct (rejected_or_accepted json_loads data)
    as [H|[(msg & id & H)|(e & H & C)]]; [exact H| |].
  - rewrite (accepted_valid_id _ _ _ H) in V. discriminate.
  - rewrite (Hc e H) in C. discriminate.
Qed.

Lemma learn_remote (addr : pystr * Z) (r : state) :
  remote_host (learn addr r)
  = Some (match remote_host r with None => fst addr | Some h => h end) /\
  remote_port (learn addr r)
  = match remote_host r with
    | None => Some (snd addr)
    | Some _ => remote_port r
    end.
Proof. unfold learn. destruct r as [? ? [h|] ? ? ? ?]; simpl; auto. Qed.

(** X14: the receiver only ever adds: what it has printed and what it has
    sent are extended, the cursor does not go back, and a stored message is
    neither removed nor replaced. *)
Theorem receiver_only_adds (arrivals : list (string * (pystr * Z)))
        (r : state) :
  let r' := exec (run json_loads printable arrivals) r in
  printed_id r <= printed_id r' /\
  (exists out, stdout r' = stdout r ++ out) /\
  (exists acks, sent r' = sent r ++ acks) /\
  (forall id msg, dict_find id (received_msgs r) = Some msg ->
                  dict_find id (received_msgs r') = Some msg).
Proof.
  revert r. induction arrivals as [|[data addr] rest IH]; intros r.
  - cbv zeta. unfold exec. cbn [run ret snd].
    split; [lia|]. split; [exists []; now rewrite app_nil_r|].
    split; [exists []; now rewrite app_nil_r|auto].
  - cbv zeta.
    destruct (run_conn_effect json_loads printable data addr r)
      as (_ & _ & E1 & (o1 & E2) & (a1 & E3) & (n1 & E4)).
    destruct (run_step json_loads printable data addr rest r) as [E|E];
      rewrite E.
    + destruct (IH (exec (run_conn json_loads printable data addr) r))
        as (I1 & (o2 & I2) & (a2 & I3) & I4).
      split; [lia|]. split; [|split].
      * exists (o1 ++ o2). now rewrite I2, E2, app_assoc.
      * exists (a1 ++ a2). now rewrite I3, E3, app_assoc.
      * intros id msg F. apply I4. rewrite E4. now apply dict_find_app.
    + split; [lia|]. split; [eauto|]. split; [eauto|].
      intros id msg F. rewrite E4. now apply dict_find_app.
Qed.

(** X15: the receiver answers to the address of the first datagram it gets,
    valid or not, whatever the addresses of the later ones. *)
Theorem peer_learned_once (arrivals : list (string * (pystr * Z)))
        (r : state) :
  let r' := exec (run json_loads printable arrivals) r in
  match remote_host r, arrivals with
  | Some h, _ => remote_host r' = Some h /\ remote_port r' = remote_port r
  | None, [] => remote_host r' = None
  | None, (_, addr) :: _ =>
      remote_host r' = Some (fst addr) /\ remote_port r' = Some (snd addr)
  end.
Proof.
  assert (K : forall arrivals r h,
             remote_host r = Some h ->
             remote_host (exec (run json_loads printable arrivals) r)
             = Some h /\
             remote_port (exec (run json_loads printable arrivals) r)
             = remote_port r).
  { clear. intros arrivals.
    induction arrivals as [|[data addr] rest IH]; intros r h Hh.
    - unfold exec. cbn [run ret snd]. auto.
    - destruct (run_conn_effect json_loads printable data addr r)
        as (E1 & E2 & _).
      destruct (learn_remote addr r) as (L1 & L2).
      rewrite Hh in L1, L2. rewrite L1 in E1. rewrite L2 in E2.
      destruct (run_step json_loads printable data addr rest r) as [E|E];
        rewrite E; [|auto].
      destruct (IH _ h E1) as (I1 & I2). rewrite I1, I2. auto. }
  cbv zeta. destruct (remote_host r) as [h|] eqn:Hh.
  - exact (K arrivals r h Hh).
  - destruct arrivals as [|[data addr] rest].
    + unfold exec. cbn [run ret snd]. exact Hh.
    + destruct (run_conn_effect json_loads printable data addr r)
        as (E1 & E2 & _).
      destruct (learn_remote addr r) as (L1 & L2).
      rewrite Hh in L1, L2. rewrite L1 in E1. rewrite L2 in E2.
      destruct (run_step json_loads printable data addr rest r) as [E|E];
        rewrite E; [|auto].
      destruct (K rest _ _ E1) as (I1 & I2). rewrite I1, I2. auto.
Qed.

Lemma core_next (r : state) (msg data : json) :
  cursor_core printable r ->
  dict_find (JInt (printed_id r + 1)) (received_msgs r) = Some msg ->
  getitem msg (py "data") = inr data ->
  0 <= printed_id r + 1 /\
  (forall i, 1 <= i <= printed_id r + 1 ->
             exists msg payload,
               dict_find (JInt i) (received_msgs r) = Some msg /\
               getitem msg (py "data") = inr payload) /\
  filter printable
         (map (stored_data (received_msgs r))
              (ids_from 1 (Z.to_nat (printed_id r + 1))))
  = stdout r ++ (if printable data then [data] else []).
Proof.
  intros (C0 & C1 & C2) E D. split; [lia|]. split.
  - intros i Hi. destruct (Z.eq_dec i (printed_id r + 1)) as [->|Ne].
    + exists msg, data. auto.
    + apply C1. lia.
  - replace (Z.to_nat (printed_id r + 1)) with (S (Z.to_nat (printed_id r)))
      by lia.
    rewrite ids_from_S, map_app, filter_app, <- C2. f_equal.
    cbn [map filter].
    replace (1 + Z.of_nat (Z.to_nat (printed_id r))) with (printed_id r + 1)
      by lia.
    unfold stored_data. rewrite E, D. reflexivity.
Qed.

Lemma stored_ok_find (d : pydict) (k msg : json) :
  stored_ok d -> dict_find k d = Some msg ->
  exists data, getitem msg (py "data") = inr data.
Proof.
  intros Hok E. destruct (dict_find_in _ _ _ E) as (k' & Hin & _).
  unfold stored_ok in Hok. rewrite Forall_forall in Hok.
  exact (Hok _ Hin).
Qed.

Lemma print_loop_core (fuel : nat) :
  forall r : state,
    stored_ok (received_msgs r) ->
    cursor_core printable r ->
    cursor_core printable (snd (print_loop printable fuel r)).
Proof.
  induction fuel as [|n IH]; intros r Hok C; [exact C|].
  rewrite print_loop_S.
  destruct (dict_find _ _) as [msg|] eqn:E; [|exact C].
  destruct (stored_ok_find _ _ _ Hok E) as (data & D).
  destruct (core_next r msg data C E D) as (N0 & N1 & N2).
  cbv zeta. rewrite D. destruct (printable data).
  - apply IH; [destruct r; exact Hok|].
    destruct r. unfold cursor_core. receiver_fields in *. auto.
  - cbn [snd]. destruct r. unfold cursor_core. receiver_fields in *.
    rewrite app_nil_r in N2. auto.
Qed.

(** When the loop raises, it is [print] that raised, on the message under
    the cursor. *)
Lemma print_loop_raised (fuel : nat) :
  forall (r : state) (e : exn),
    stored_ok (received_msgs r) ->
    0 <= printed_id r ->
    fst (print_loop printable fuel r) = inl e ->
    let r' := snd (print_loop printable fuel r) in
    0 < printed_id r' /\
    printable (stored_data (received_msgs r') (printed_id r')) = false.
Proof.
  induction fuel as [|n IH]; intros r e Hok H0; [discriminate|].
  rewrite print_loop_S.
  destruct (dict_find _ _) as [msg|] eqn:E; [|discriminate].
  destruct (stored_ok_find _ _ _ Hok E) as (data & D).
  cbv zeta. rewrite D. destruct (printable data) eqn:Q.
  - intros H. apply (IH _ e); [destruct r; exact Hok| |exact H].
    destruct r. receiver_fields in *. lia.
  - intros _. cbn [snd]. destruct r. receiver_fields in *.
    split; [lia|]. unfold stored_data. now rewrite E, D.
Qed.

Lemma run_conn_cursor (data : string) (addr : pystr * Z) (r : state) :
  reachable json_loads printable r ->
  cursor_ok printable r ->
  cursor_ok printable (exec (run_conn json_loads printable data addr) r).
Proof.
  intros R C. unfold exec.
  destruct (learn_fields addr r) as (L1 & L2 & L3 & L4 & L5).
  assert (Same : forall r', printed_id r' = printed_id r ->
                            received_msgs r' = received_msgs r ->
                            stdout r' = stdout r ->
                            cursor_ok printable r').
  { intros r' E1 E2 E3. unfold cursor_ok, last_printed in *.
    now rewrite E1, E2, E3. }
  destruct (rejected_or_accepted json_loads data)
    as [H|[(msg & id & H)|(e & H & Hc)]].
  - rewrite (run_conn_rejected json_loads printable _ _ _ H).
    apply Same; unfold discard; receiver_fields; assumption.
  - rewrite (run_conn_accepted json_loads printable _ _ _ _ _ H).
    cbv zeta. rewrite L2.
    destruct (dict_find id (received_msgs r)) eqn:E.
    + apply Same; unfold acknowledge; receiver_fields; assumption.
    + pose proof H as [cs payload sum _ _ Hp _ _ _ _].
      pose proof (stored_ok_set id msg payload _
                    (reachable_stored_ok json_loads printable r R) Hp)
        as Hok.
      set (r0 := set_received_msgs _ _).
      assert (Hok0 : stored_ok (received_msgs r0)) by exact Hok.
      assert (D : received_msgs r0 = received_msgs r ++ [(id, msg)])
        by (subst r0; receiver_fields; now apply dict_set_new).
      assert (C0 : cursor_core printable r0).
      { destruct C as (A0 & A1 & A2 & _). unfold cursor_core. rewrite D.
        subst r0. receiver_fields. rewrite L1, L4.
        split; [exact A0|]. split.
        - intros i Hi. destruct (A1 i Hi) as (m & p & F & G).
          exists m, p. split; [now apply dict_find_app|exact G].
        - rewrite A2. f_equal. apply map_ext_in. intros i Hi.
          apply ids_from_in in Hi. symmetry. apply stored_data_app.
          destruct (A1 i ltac:(lia)) as (m & p & F & _).
          rewrite F. discriminate. }
      pose proof (print_loop_core (S (length (received_msgs r0))) r0
                    Hok0 C0) as PC.
      pose proof (print_loop_stops printable
                    (S (length (received_msgs r0))) r0) as Q.
      pose proof (print_loop_raised (S (length (received_msgs r0))) r0)
        as PR.
      cbv zeta in Q, PR. unfold exec in Q.
      specialize (Q ltac:(pose proof (above_length (printed_id r0)
                                        (received_msgs r0)); lia)).
      assert (P0 : 0 <= printed_id r0).
      { destruct C0 as (A & _). exact A. }
      unfold print_msgs, bind, get.
      destruct (print_loop _ _ r0) as [[e|[]] r1]; cbn [fst snd] in *;
        destruct PC as (B0 & B1 & B2).
      * destruct (PR e Hok0 P0 eq_refl) as (X1 & X2).
        unfold discard, cursor_ok, last_printed. receiver_fields.
        split; [exact B0|]. split; [exact B1|]. split; [exact B2|].
        intros [Z0|Z1]; [lia|congruence].
      * unfold acknowledge, cursor_ok, last_printed. receiver_fields.
        split; [exact B0|]. split; [exact B1|]. split; [exact B2|].
        intros _. now apply Q.
  - rewrite (run_conn_fatal json_loads printable _ _ _ _ H Hc). cbn [snd].
    apply Same; assumption.
Qed.

Lemma reachable_cursor (r : state) :
  reachable json_loads printable r -> cursor_ok printable r.
Proof.
  induction 1 as [|r data addr R IH].
  - unfold cursor_ok. simpl. split; [lia|]. split; [intros; lia|].
    split; [reflexivity|auto].
  - exact (run_conn_cursor data addr r R IH).
Qed.

Lemma stored_printable_data (d : pydict) (i : Z) :
  stored_printable printable d ->
  dict_find (JInt i) d <> None ->
  printable (stored_data d i) = true.
Proof.
  intros Hs F. unfold stored_data.
  destruct (dict_find (JInt i) d) as [m|] eqn:E; [|contradiction].
  destruct (dict_find_in _ _ _ E) as (k' & Hin & _).
  unfold stored_printable in Hs. rewrite Forall_forall in Hs.
  destruct (Hs _ Hin) as (p & Hp & Hq). cbn [snd] in Hp.
  now rewrite Hp.
Qed.

(** X16: between two datagrams every id up to the cursor is stored, and
    what has been printed is the data stored under the ids 1, 2, ... up to
    the cursor, in that order, without those that standard output cannot
    encode; the id after the cursor is not stored unless the last call of
    [print] raised.  If every stored payload can be encoded, the output is
    the data of all the ids up to the cursor, one each, and the cursor
    stands at the first gap. *)
Theorem cursor_at_first_gap (r : state) :
  reachable json_loads printable r ->
  cursor_ok printable r /\
  (stored_printable printable (received_msgs r) ->
   stdout r = map (stored_data (received_msgs r))
                  (ids_from 1 (Z.to_nat (printed_id r))) /\
   len (stdout r) = printed_id r /\
   dict_find (JInt (printed_id r + 1)) (received_msgs r) = None).
Proof.
  intros R. pose proof (reachable_cursor r R) as C.
  split; [exact C|]. intros Hs.
  destruct C as (C0 & C1 & C2 & C3).
  assert (P : forall i, 1 <= i <= printed_id r ->
                        printable (stored_data (received_msgs r) i) = true).
  { intros i Hi. apply stored_printable_data; [exact Hs|].
    destruct (C1 i Hi) as (m & p & F & _). rewrite F. discriminate. }
  assert (E : stdout r = map (stored_data (received_msgs r))
                             (ids_from 1 (Z.to_nat (printed_id r)))).
  { rewrite C2. apply filter_all. apply Forall_map, Forall_forall.
    intros i Hi. apply ids_from_in in Hi. apply P. lia. }
  split; [exact E|]. split.
  - rewrite E. unfold len, ids_from. rewrite !length_map, length_seq. lia.
  - apply C3. unfold last_printed.
    destruct (Z.eq_dec (printed_id r) 0) as [Z0|Z0]; [now left|].
    right. apply P. lia.
Qed.

(** A valid message is stored once it has been handled, and it is the
    only one that can be acknowledged. *)
Lemma run_conn_ack (data : string) (addr : pystr * Z) (r : state) :
  let r' := exec (run_conn json_loads printable data addr) r in
  (sent r' = sent r \/
   exists id, valid_id json_loads data = Some id /\
              sent r' = sent r ++ [ack_msg id]) /\
  (forall id, valid_id json_loads data = Some id ->
              dict_find id (received_msgs r') <> None).
Proof.
  cbv zeta. unfold exec.
  destruct (learn_fields addr r) as (L1 & L2 & L3 & L4 & L5).
  destruct (rejected_or_accepted json_loads data)
    as [H|[(msg & id & H)|(e & H & Hc)]].
  - rewrite (run_conn_rejected json_loads printable _ _ _ H).
    unfold discard. receiver_fields. split; [now left|].
    intros id V. destruct (valid_id_accepted data id V) as (msg & A).
    exfalso. clear - H A. destruct A as [cs payload sum A1 A2 A3 A4 A5 A6 A7].
    destruct H as [e H1 C0|m e H1 H2|m c e H1 H2 H3
                  |m c p e H1 H2 H3 H4
                  |m c p s H1 H2 H3 H4 H5
                  |m c p s e H1 H2 H3 H4 H5 H6
                  |m c p s i H1 H2 H3 H4 H5 H6 H7];
      congruence.
  - pose proof (accepted_valid_id _ _ _ H) as V.
    rewrite (run_conn_accepted json_loads printable _ _ _ _ _ H).
    cbv zeta. rewrite L2.
    destruct (dict_find id (received_msgs r)) as [m|] eqn:G.
    + unfold acknowledge. receiver_fields. rewrite L2, L3. split.
      * right. exists id. auto.
      * intros id' V'. rewrite V in V'. injection V' as <-.
        rewrite G. discriminate.
    + set (r0 := set_received_msgs _ _).
      pose proof (print_loop_mono printable
                    (S (length (received_msgs r0))) r0) as P.
      cbv zeta in P. destruct P as (P1 & P2 & _).
      assert (F0 : dict_find id (received_msgs r0) <> None).
      { subst r0. receiver_fields. rewrite (dict_set_new _ _ _ G).
        rewrite (dict_find_last _ _ _ _ G).
        destruct H as [cs payload sum _ _ _ _ _ _ Hh].
        rewrite (py_eq_refl id Hh). discriminate. }
      assert (S0 : sent r0 = sent r)
        by (subst r0; receiver_fields; exact L3).
      unfold print_msgs, bind, get.
      destruct (print_loop _ _ r0) as [[e|[]] r1]; cbn [fst snd] in *;
        unfold acknowledge, discard; receiver_fields;
        rewrite P1, P2, S0; (split; [|intros id' V'; rewrite V in V';
                                      injection V' as <-; exact F0]).
      * now left.
      * right. exists id. auto.
  - rewrite (run_conn_fatal json_loads printable _ _ _ _ H Hc). cbn [snd].
    rewrite L3. split; [now left|].
    intros id V. unfold valid_id in V. rewrite H in V. discriminate.
Qed.

Lemma acks_stored (r : state) :
  reachable json_loads printable r ->
  Forall (fun a => exists id, a = ack_msg id /\
                              dict_find id (received_msgs r) <> None)
         (sent r).
Proof.
  induction 1 as [|r data addr R IH]; [constructor|].
  destruct (run_conn_effect json_loads printable data addr r)
    as (_ & _ & _ & _ & _ & (new & E4)).
  destruct (run_conn_ack data addr r) as (A & B).
  assert (Old : Forall
                  (fun a => exists id,
                       a = ack_msg id /\
                       dict_find id
                         (received_msgs
                            (exec (run_conn json_loads printable data addr)
                                  r)) <> None) (sent r)).
  { eapply Forall_impl; [|exact IH]. cbn.
    intros a (id & -> & F). exists id. split; [reflexivity|].
    rewrite E4. destruct (dict_find id (received_msgs r)) as [m|] eqn:G;
      [|contradiction].
    now rewrite (dict_find_app _ _ _ _ G). }
  destruct A as [A|(id & V & A)]; rewrite A; [exact Old|].
  apply Forall_app. split; [exact Old|].
  constructor; [|constructor]. exists id. split; [reflexivity|].
  now apply B.
Qed.

(** X17: every acknowledgment the receiver has sent carries an id that is
    stored: nothing is acknowledged that could still be lost. *)
Theorem acks_only_for_stored (r : state) :
  reachable json_loads printable r ->
  Forall (fun a => exists id, a = ack_msg id /\
                              dict_find id (received_msgs r) <> None)
         (sent r).
Proof. exact (acks_stored r). Qed.

(** The acknowledgment that answers a datagram when [json.loads] raises
    nothing but what is caught and [print] can write every payload. *)
Lemma run_conn_sent (data : string) (addr : pystr * Z) (r : state) :
  stored_printable printable (received_msgs r) ->
  clean json_loads printable data ->
  (forall e, json_loads data = inl e -> caught e = true) ->
  fst (run_conn json_loads printable data addr r) = inr tt /\
  sent (exec (run_conn json_loads printable data addr) r)
  = sent r ++ match valid_id json_loads data with
              | Some id => [ack_msg id]
              | None => []
              end.
Proof.
  intros Hs Hcl Hc. unfold exec.
  destruct (learn_fields addr r) as (L1 & L2 & L3 & L4 & L5).
  destruct (valid_id json_loads data) as [id|] eqn:V.
  - destruct (valid_id_accepted data id V) as (msg & H).
    rewrite (run_conn_accepted json_loads printable _ _ _ _ _ H).
    cbv zeta. rewrite L2. destruct (dict_find id (received_msgs r)).
    + unfold acknowledge. receiver_fields. now rewrite L3.
    + destruct H as [cs payload sum Hl _ Hp _ _ _ _].
      pose proof (stored_printable_set printable id msg payload _ Hs Hp
                    (Hcl msg payload Hl Hp)) as Hok.
      set (r0 := set_received_msgs _ _).
      assert (Hok0 : stored_printable printable (received_msgs r0))
        by exact Hok.
      pose proof (print_loop_ok printable (S (length (received_msgs r0)))
                    r0 Hok0) as P1.
      destruct (print_loop_mono printable (S (length (received_msgs r0)))
                  r0) as (_ & P3 & _).
      unfold print_msgs, bind, get.
      destruct (print_loop _ _ r0) as [[e|[]] r1]; cbn [fst snd] in *;
        [discriminate|].
      unfold acknowledge. receiver_fields. rewrite P3. subst r0.
      receiver_fields. now rewrite L3.
  - rewrite (run_conn_rejected json_loads printable _ _ _
               (valid_id_rejected data V Hc)).
    unfold discard. receiver_fields. now rewrite L3, app_nil_r.
Qed.



(** X20: a new valid message whose id is the next one and whose payload
    standard output can encode is printed at once, provided the last call
    of [print] did not raise.  What follows it in the output is the data
    that was stored under the ids after it, up to the new cursor, in the
    order of the ids, without those that cannot be encoded, and nothing
    else. *)
Theorem next_id_printed (data : string) (addr : pystr * Z)
        (r : state) (msg id payload : json) :
  reachable json_loads printable r ->
  last_printed printable r ->
  accepted json_loads data msg id ->
  key_int id = Some (printed_id r + 1) ->
  dict_find id (received_msgs r) = None ->
  getitem msg (py "data") = inr payload ->
  printable payload = true ->
  let r' := exec (run_conn json_loads printable data addr) r in
  printed_id r + 1 <= printed_id r' /\
  stdout r'
  = stdout r
    ++ payload
       :: filter printable
            (map (stored_data (received_msgs r))
                 (ids_from (printed_id r + 2)
                    (Z.to_nat (printed_id r' - printed_id r - 1)))).
Proof.
  intros R Hlast H Hk E Hp Hq. cbv zeta.
  pose proof (reachable_conn json_loads printable r data addr R) as R'.
  destruct (reachable_cursor r R) as (C0 & C1 & C2 & G).
  specialize (G Hlast).
  destruct (reachable_cursor _ R') as (_ & C1' & C2' & _).
  destruct (learn_fields addr r) as (L1 & L2 & L3 & L4 & L5).
  assert (K : py_eq (JInt (printed_id r + 1)) id = true)
    by (now apply py_eq_int).
  assert (X : received_msgs
                (exec (run_conn json_loads printable data addr) r)
              = received_msgs r ++ [(id, msg)] /\
              printed_id r + 1
              <= printed_id
                   (exec (run_conn json_loads printable data addr) r)).
  { unfold exec.
    rewrite (run_conn_accepted json_loads printable _ _ _ _ _ H).
    cbv zeta. rewrite L2, E.
    set (r0 := set_received_msgs _ _).
    assert (D : received_msgs r0 = received_msgs r ++ [(id, msg)])
      by (subst r0; receiver_fields; now apply dict_set_new).
    assert (F : dict_find (JInt (printed_id r0 + 1)) (received_msgs r0)
                = Some msg).
    { replace (printed_id r0) with (printed_id r)
        by (subst r0; receiver_fields; now rewrite L1).
      now rewrite D, (dict_find_last _ _ _ _ G), K. }
    unfold print_msgs, bind, get. rewrite print_loop_S, F. cbv zeta.
    rewrite Hp, Hq.
    set (r2 := set_stdout _ _).
    pose proof (print_loop_mono printable (length (received_msgs r0)) r2)
      as M.
    cbv zeta in M. destruct M as (M1 & _ & _ & _ & _ & M6 & _).
    assert (D2 : received_msgs r2 = received_msgs r0)
      by (subst r2; destruct r0; reflexivity).
    assert (P2 : printed_id r2 = printed_id r + 1)
      by (subst r2 r0; receiver_fields; now rewrite L1).
    destruct (print_loop _ _ r2) as [[e|[]] r3]; cbn [fst snd] in *;
      unfold acknowledge, discard; receiver_fields;
      rewrite M1, D2, D; split; try reflexivity; lia. }
  destruct X as (D' & Hle). split; [exact Hle|].
  set (r' := exec (run_conn json_loads printable data addr) r) in *.
  rewrite C2', D'.
  replace (Z.to_nat (printed_id r'))
    with (Z.to_nat (printed_id r)
          + (1 + Z.to_nat (printed_id r' - printed_id r - 1)))%nat by lia.
  rewrite !ids_from_app, !map_app, !filter_app.
  replace (1 + Z.of_nat (Z.to_nat (printed_id r))) with (printed_id r + 1)
    by lia.
  replace (printed_id r + 1 + Z.of_nat 1) with (printed_id r + 2) by lia.
  assert (S1 : stored_data (received_msgs r ++ [(id, msg)])
                           (printed_id r + 1) = payload).
  { unfold stored_data. now rewrite (dict_find_last _ _ _ _ G), K, Hp. }
  assert (E3 : map (stored_data (received_msgs r ++ [(id, msg)]))
                   (ids_from (printed_id r + 2)
                      (Z.to_nat (printed_id r' - printed_id r - 1)))
               = map (stored_data (received_msgs r))
                     (ids_from (printed_id r + 2)
                        (Z.to_nat (printed_id r' - printed_id r - 1)))).
  { apply map_ext_in. intros i Hi. apply ids_from_in in Hi.
    apply stored_data_app.
    destruct (C1' i ltac:(lia)) as (m & p & F & _). rewrite D' in F.
    destruct (dict_find (JInt i) (received_msgs r)) as [m0|] eqn:F0;
      [discriminate|].
    exfalso. rewrite (dict_find_last _ _ _ _ F0) in F.
    destruct (py_eq (JInt i) id) eqn:Q; [|discriminate].
    apply py_eq_int in Q. rewrite Hk in Q. injection Q as Q. lia. }
  rewrite E3. f_equal.
  - rewrite C2. f_equal. apply map_ext_in. intros i Hi.
    apply ids_from_in in Hi. apply stored_data_app.
    destruct (C1 i ltac:(lia)) as (m & p & F & _). rewrite F. discriminate.
  - unfold ids_from at 1. cbn [seq map].
    replace (printed_id r + 1 + Z.of_nat 0) with (printed_id r + 1) by lia.
    rewrite S1. cbn [filter]. rewrite Hq. reflexivity.
Qed.

End ReceiverExtras.

(** ** The sender and the receiver together *)

Section EndToEnd.
Variable json_loads : string -> Exc json.
Variable printable : json -> bool.

(** A message framed by the sender passes the checks of the receiver. *)
Lemma framed_valid_id (data : string) (id : Z) (chunk : pystr) :
  chunk <> [] ->
  json_loads data
  = inr (Sender.data_msg id chunk (code_sum chunk mod 256)) ->
  valid_id json_loads data = Some (JInt id).
Proof.
  intros Hne Hl. unfold valid_id. rewrite Hl.
  replace (getitem (Sender.data_msg id chunk (code_sum chunk mod 256))
                   (py "cs"))
    with (@inr exn json (JInt (code_sum chunk mod 256))) by reflexivity.
  replace (getitem (Sender.data_msg id chunk (code_sum chunk mod 256))
                   (py "data"))
    with (@inr exn json (JStr chunk)) by reflexivity.
  replace (getitem (Sender.data_msg id chunk (code_sum chunk mod 256))
                   (py "id"))
    with (@inr exn json (JInt id)) by reflexivity.
  rewrite receiver_checksum256_str.
  destruct chunk as [|c rest]; [contradiction|].
  unfold py_eq. cbn [key_int]. rewrite Z.eqb_refl. reflexivity.
Qed.

(** X21: every message the sender has sent passes the checks of the
    receiver when it arrives as it was sent, and its id is one that has
    been given out. *)
Theorem sent_messages_valid (s : Sender.state) (m : json) (data : string) :
  Sender.reachable json_loads s ->
  In m (Sender.wire s) ->
  json_loads data = inr m ->
  exists i, 1 <= i <= Sender.id_generator s /\
            valid_id json_loads data = Some (JInt i).
Proof.
  intros R Hin Hl.
  pose proof (reachable_wire json_loads s R) as W.
  rewrite Forall_forall in W.
  destruct (W m Hin) as (id & chunk & -> & Hne & Hb).
  exists id. split; [lia|]. exact (framed_valid_id data id chunk Hne Hl).
Qed.

(** X22: a chunk makes the round trip, if standard output at the receiver
    can encode it and the payloads stored there: the message the sender
    frames for it is accepted by the receiver, which stores it and answers
    with an acknowledgment of its id, and that acknowledgment makes the
    sender drop the message, the pending messages being again what they
    were. *)
Theorem chunk_round_trip (chunk : pystr) (d1 d2 : string)
        (addr : pystr * Z) (s : Sender.state) (r : Receiver.state) :
  Sender.reachable json_loads s ->
  stored_printable printable (Receiver.received_msgs r) ->
  chunk <> [] ->
  printable (JStr chunk) = true ->
  let id := Sender.id_generator s + 1 in
  let s1 := exec (Sender.on_stdin chunk) s in
  json_loads d1 = inr (last (Sender.wire s1) JNull) ->
  let r1 := exec (Receiver.run_conn json_loads printable d1 addr) r in
  json_loads d2 = inr (last (Receiver.sent r1) JNull) ->
  let s2 := exec (Sender.on_socket json_loads d2) s1 in
  Receiver.sent r1 = Receiver.sent r ++ [ack_msg (JInt id)] /\
  dict_find (JInt id) (Receiver.received_msgs r1) <> None /\
  dict_find (JInt id) (Sender.msgs_waiting_ack s1) <> None /\
  Sender.msgs_waiting_ack s2 = Sender.msgs_waiting_ack s /\
  Sender.waiting s2 = false.
Proof.
  intros Rs Hs Hne Hq. cbv zeta. intros Hl1.
  destruct chunk as [|c rest]; [contradiction|].
  destruct (reachable_ids json_loads s Rs) as (H0 & H).
  destruct (on_stdin_chunk_fields c rest s H H0) as (A & B & C & _).
  cbv zeta in A, B, C.
  set (id := Sender.id_generator s + 1) in *.
  set (m := Sender.data_msg id (c :: rest) (code_sum (c :: rest) mod 256))
    in *.
  set (s1 := exec (Sender.on_stdin (c :: rest)) s) in *.
  rewrite C, last_last in Hl1.
  assert (V : valid_id json_loads d1 = Some (JInt id))
    by (apply (framed_valid_id d1 id (c :: rest)); [discriminate|exact Hl1]).
  assert (Hcl : clean json_loads printable d1).
  { intros m' p' Hm Hp. rewrite Hl1 in Hm. injection Hm as <-.
    subst m. cbn in Hp. injection Hp as <-. exact Hq. }
  assert (Hc : forall e, json_loads d1 = inl e -> caught e = true)
    by (intros e He; rewrite Hl1 in He; discriminate).
  destruct (run_conn_sent json_loads printable d1 addr r Hs Hcl Hc)
    as (_ & S1).
  rewrite V in S1. rewrite S1, last_last. intros Hl2.
  assert (N : dict_find (JInt id) (Sender.msgs_waiting_ack s) = None).
  { apply (ids_between_find_none 0 (Sender.id_generator s) _ _ H).
    cbn [key_int]. intros i Hi. injection Hi as <-. subst id. lia. }
  assert (P : dict_find (JInt id) (Sender.msgs_waiting_ack s1) = Some m).
  { rewrite B, (dict_find_last _ _ _ _ N).
    unfold py_eq. cbn [key_int]. now rewrite Z.eqb_refl. }
  split; [reflexivity|]. split; [|split; [rewrite P; discriminate|]].
  - destruct (run_conn_ack json_loads printable d1 addr r) as (_ & K).
    exact (K _ V).
  - unfold exec.
    rewrite (on_socket_decoded json_loads d2 s1 (ack_msg (JInt id))
               (JInt id) Hl2 eq_refl eq_refl).
    cbv zeta. rewrite P.
    replace (getitem (ack_msg (JInt id)) (py "type"))
      with (@inr exn json (JStr (py "ack"))) by reflexivity.
    replace (py_eq (JStr (py "ack")) (JStr (py "ack"))) with true
      by reflexivity.
    rewrite update_time_out_eq.
    assert (D : dict_pop (JInt id) (Sender.msgs_waiting_ack s1)
                = Sender.msgs_waiting_ack s).
    { rewrite B, (dict_pop_snoc _ _ _ _ N).
      unfold py_eq. cbn [key_int]. now rewrite Z.eqb_refl. }
    destruct s1. simpl in *. rewrite D. split; reflexivity.
Qed.

End EndToEnd.

(** ** The added properties on concrete inputs *)

Lemma first_sent_reachable : Sender.reachable sample_loads first_sent.
Proof. apply run_reachable, Sender.reachable_init. Qed.

Lemma closed_reachable : Sender.reachable sample_loads closed.
Proof. apply run_reachable, Sender.reachable_init. Qed.

Lemma delivered_reachable :
  Receiver.reachable sample_loads utf8_strict delivered.
Proof. apply run_reachable_receiver, Receiver.reachable_init. Qed.


Lemma checksum256_app_witness :
  Receiver.checksum256 (JStr (py "ABCD")) = inr 10.
Proof.
  exact (checksum256_app (py "AB") (py "CD") 131 135 eq_refl eq_refl).
Defined.

Lemma checksum256_permutation_witness :
  Receiver.checksum256 (JStr (py "AB"))
  = Receiver.checksum256 (JStr (py "BA")).
Proof.
  exact (checksum256_permutation [65; 66] [66; 65] (perm_swap 66 65 [])).
Defined.

Lemma pending_ids_sorted_witness :
  exists ids,
    pending_ids collapsed = map JInt ids /\
    StronglySorted Z.lt ids /\
    Forall (fun i => 1 <= i <= Sender.id_generator collapsed) ids.
Proof.
  destruct (pending_ids_sorted sample_loads collapsed collapsed_reachable)
    as (_ & H).
  exact H.
Defined.

Lemma chunk_submitted_witness :
  exists cs,
    Sender.checksum256 (JStr (py "AB")) = inr cs /\
    Sender.wire (exec (Sender.on_stdin (py "AB")) filled)
    = Sender.wire filled
      ++ [Sender.data_msg (Sender.id_generator filled + 1) (py "AB") cs].
Proof.
  assert (Hne : py "AB" <> []) by discriminate.
  destruct (chunk_submitted sample_loads (py "AB") filled filled_reachable
              Hne) as (cs & C & _ & _ & W & _).
  exists cs. split; [exact C|exact W].
Defined.

Lemma ack_removes_pending_witness :
  dict_find (JInt 1)
    (Sender.msgs_waiting_ack
       (exec (Sender.on_socket sample_loads (ack_text "1")) collapsed))
  = None /\
  len (Sender.msgs_waiting_ack
         (exec (Sender.on_socket sample_loads (ack_text "1")) collapsed))
  = len (Sender.msgs_waiting_ack collapsed) - 1.
Proof.
  assert (Hl : sample_loads (ack_text "1") = inr (ack_msg (JInt 1)))
    by (vm_compute; reflexivity).
  assert (Hp : dict_find (JInt 1) (Sender.msgs_waiting_ack collapsed)
               <> None) by (vm_compute; discriminate).
  destruct (ack_removes_pending sample_loads (ack_text "1") collapsed
              (ack_msg (JInt 1)) (JInt 1) 1 collapsed_reachable Hl
              eq_refl eq_refl eq_refl Hp) as (A & B & _).
  split; [exact A|exact B].
Defined.

Lemma only_acks_remove_witness :
  Sender.msgs_waiting_ack
    (exec (Sender.on_socket sample_loads (data_text "1" "AB" "131"))
          collapsed)
  = Sender.msgs_waiting_ack collapsed.
Proof.
  assert (Hl : sample_loads (data_text "1" "AB" "131")
               = inr (Sender.data_msg 1 (py "AB") 131))
    by (vm_compute; reflexivity).
  destruct (only_acks_remove sample_loads (data_text "1" "AB" "131")
              collapsed (Sender.data_msg 1 (py "AB") 131) (JInt 1)
              (JStr (py "msg")) Hl eq_refl eq_refl eq_refl eq_refl)
    as (A & _).
  exact A.
Defined.

Lemma garbage_unreadable :
  unreadable sample_loads (Sender.msgs_waiting_ack collapsed) "garbage"
             [LogExn ValueError; LogText "corrupt msg"].
Proof.
  apply unreadable_malformed; [vm_compute; reflexivity|reflexivity].
Qed.

Lemma unreadable_datagram_ignored_witness :
  exec (Sender.on_socket sample_loads "garbage") collapsed
  = Sender.set_stderr
      (Sender.stderr collapsed
       ++ [LogExn ValueError; LogText "corrupt msg"]) collapsed.
Proof.
  exact (unreadable_datagram_ignored sample_loads "garbage" collapsed _
           garbage_unreadable).
Defined.

(** A round in which the datagram of two thousand brackets has arrived. *)
Lemma run_raises_only_uncaught_witness :
  exists k,
    In (Some k) (map Sender.on_sock [Sender.mk_ready (Some deep_text) None])
    /\ odd_loads k = inl RecursionError /\ caught RecursionError = false.
Proof.
  assert (H : fst (Sender.run odd_loads
                     [Sender.mk_ready (Some deep_text) None]
                     (Sender.init burst_clock)) = inl RecursionError)
    by (vm_compute; reflexivity).
  exact (run_raises_only_uncaught odd_loads
           [Sender.mk_ready (Some deep_text) None] (Sender.init burst_clock)
           RecursionError (Sender.reachable_init odd_loads burst_clock) H).
Defined.

Lemma no_read_while_waiting_witness :
  Sender.id_generator (exec (Sender.run_round sample_loads chunk_round)
                            collapsed)
  = Sender.id_generator collapsed.
Proof.
  assert (Hw : Sender.waiting collapsed = true) by (vm_compute; reflexivity).
  destruct (no_read_while_waiting sample_loads chunk_round collapsed
              collapsed_reachable (or_introl Hw)) as (A & _).
  exact A.
Defined.

Lemma finished_is_final_witness :
  Sender.finished (exec (Sender.run sample_loads [chunk_round; ab_round])
                        closed) = true /\
  Sender.id_generator (exec (Sender.run sample_loads [chunk_round; ab_round])
                            closed)
  = Sender.id_generator closed.
Proof.
  assert (Hf : Sender.finished closed = true) by (vm_compute; reflexivity).
  destruct (finished_is_final sample_loads [chunk_round; ab_round] closed
              closed_reachable Hf) as (A & B & _).
  split; [exact A|exact B].
Defined.

Lemma target_window_never_grows_witness :
  Sender.target_window collapsed <= Sender.target_window filled.
Proof.
  destruct (target_window_never_grows sample_loads [idle_round] filled
              filled_reachable) as (A & _).
  assert (E : exec (Sender.run sample_loads [idle_round]) filled = collapsed)
    by (vm_compute; reflexivity).
  rewrite E in A. exact A.
Defined.

Lemma only_pending_sent_witness :
  exists more,
    Sender.wire (exec Sender.retransmit_msgs collapsed)
    = Sender.wire collapsed ++ more /\
    incl more
         (dict_values
            (Sender.msgs_waiting_ack
               (exec Sender.retransmit_msgs collapsed))).
Proof.
  exact (only_pending_sent sample_loads collapsed _ collapsed_reachable
           (Sender.step_retransmit sample_loads collapsed)).
Defined.

Lemma sent_messages_valid_witness :
  exists i, 1 <= i <= Sender.id_generator first_sent /\
            valid_id sample_loads (data_text "1" "AB" "131")
            = Some (JInt i).
Proof.
  assert (Hin : In (Sender.data_msg 1 (py "AB") 131)
                   (Sender.wire first_sent))
    by (left; vm_compute; reflexivity).
  assert (Hl : sample_loads (data_text "1" "AB" "131")
               = inr (Sender.data_msg 1 (py "AB") 131))
    by (vm_compute; reflexivity).
  exact (sent_messages_valid sample_loads first_sent _ _
           first_sent_reachable Hin Hl).
Defined.

(** The receiver after the valid message with the payload U+D800: the
    cursor has moved, nothing has been printed. *)
Lemma cursor_at_first_gap_witness :
  cursor_ok utf8_strict
    (exec (Receiver.run_conn odd_loads utf8_strict lone_text peer)
          Receiver.init) /\
  len (Receiver.stdout delivered) = Receiver.printed_id delivered.
Proof.
  destruct (cursor_at_first_gap odd_loads utf8_strict _
              (Receiver.reachable_conn odd_loads utf8_strict _ lone_text
                 peer (Receiver.reachable_init odd_loads utf8_strict)))
    as (C & _).
  destruct (cursor_at_first_gap sample_loads utf8_strict delivered
              delivered_reachable) as (_ & D).
  assert (Hs : stored_printable utf8_strict
                 (Receiver.received_msgs delivered)).
  { vm_compute. repeat constructor; eexists; split; reflexivity. }
  destruct (D Hs) as (_ & L & _).
  split; [exact C|exact L].
Defined.

Lemma acks_only_for_stored_witness :
  Forall (fun a => exists id,
                     a = ack_msg id /\
                     dict_find id (Receiver.received_msgs delivered)
                     <> None)
         (Receiver.sent delivered).
Proof.
  exact (acks_only_for_stored sample_loads utf8_strict delivered
           delivered_reachable).
Defined.




(** The first message arrives after the second: both are printed. *)
Lemma next_id_printed_witness :
  Receiver.stdout
    (exec (Receiver.run sample_loads utf8_strict
             [(data_text "2" "CD" "135", peer);
              (data_text "1" "AB" "131", peer)])
          Receiver.init)
  = [JStr (py "AB"); JStr (py "CD")].
Proof.
  set (r := exec (Receiver.run_conn sample_loads utf8_strict
                    (data_text "2" "CD" "135") peer) Receiver.init).
  assert (R : Receiver.reachable sample_loads utf8_strict r)
    by (apply Receiver.reachable_conn, Receiver.reachable_init).
  assert (P0 : Receiver.printed_id r = 0) by (vm_compute; reflexivity).
  assert (E : dict_find (JInt 1) (Receiver.received_msgs r) = None)
    by (vm_compute; reflexivity).
  assert (Hk : key_int (JInt 1) = Some (Receiver.printed_id r + 1))
    by (rewrite P0; reflexivity).
  destruct (next_id_printed sample_loads utf8_strict
              (data_text "1" "AB" "131") peer r _ _ (JStr (py "AB"))
              R (or_introl P0) first_message_accepted Hk E eq_refl eq_refl)
    as (_ & A).
  assert (X : exec (Receiver.run sample_loads utf8_strict
                      [(data_text "2" "CD" "135", peer);
                       (data_text "1" "AB" "131", peer)]) Receiver.init
              = exec (Receiver.run_conn sample_loads utf8_strict
                        (data_text "1" "AB" "131") peer) r)
    by (vm_compute; reflexivity).
  rewrite X, A. vm_compute. reflexivity.
Defined.

Lemma chunk_round_trip_witness :
  Sender.msgs_waiting_ack
    (exec (Sender.on_socket sample_loads (ack_text "1"))
          (exec (Sender.on_stdin (py "AB")) (Sender.init burst_clock)))
  = [] /\
  Receiver.sent
    (exec (Receiver.run_conn sample_loads utf8_strict
             (data_text "1" "AB" "131") peer)
          Receiver.init) = [ack_msg (JInt 1)].
Proof.
  assert (Hne : py "AB" <> []) by discriminate.
  assert (H1 : sample_loads (data_text "1" "AB" "131")
               = inr (last (Sender.wire
                              (exec (Sender.on_stdin (py "AB"))
                                    (Sender.init burst_clock))) JNull))
    by (vm_compute; reflexivity).
  assert (H2 : sample_loads (ack_text "1")
               = inr (last (Receiver.sent
                              (exec (Receiver.run_conn sample_loads
                                       utf8_strict
                                       (data_text "1" "AB" "131") peer)
                                    Receiver.init)) JNull))
    by (vm_compute; reflexivity).
  destruct (chunk_round_trip sample_loads utf8_strict (py "AB")
              (data_text "1" "AB" "131") (ack_text "1") peer
              (Sender.init burst_clock) Receiver.init
              (Sender.reachable_init sample_loads burst_clock)
              (Forall_nil _) Hne eq_refl H1 H2)
    as (A & _ & _ & B & _).
  split; [exact B|exact A].
Defined.
